(** * A model of the PLUMBUS backup engine (src/backend/backup_manager.py)

    The Python [BackupManager] talks to three collaborators: the SQLite
    [Database] of src/backend/database.py, the operating system
    (os.makedirs, os.walk, subprocess.run) and the APScheduler
    [BackgroundScheduler].  The development below models
    - the three tables (clients, jobs, backups) as gmaps keyed by row id;
    - every [Database] method as a call that may raise (an sqlite3 error),
      decided by an oracle on the index of the call;
    - the operating system and the cron parser as an environment [Env];
    - [BackupManager]'s methods as programs in a small state and exception
      monad over the whole world. *)

From stdpp Require Import base gmap strings list sorting fin_maps.
From Stdlib Require Import ZArith Ascii String.

Open Scope Z_scope.

(* ------------------------------------------------------------------ *)
(** ** Python string helpers *)

(** A Python [str] is a Rocq [string] read as a sequence of code points
    U+0000-U+00FF (Latin-1), one [ascii] byte per code point. *)

(** [str(n)] for an [int]. *)
Fixpoint digits_of_N (fuel : nat) (n : N) (acc : string) : string :=
  match fuel with
  | O => acc
  | S fuel' =>
      let d := N.modulo n 10 in
      let acc' := String (ascii_of_N (48 + d)) acc in
      if (n <? 10)%N then acc' else digits_of_N fuel' (N.div n 10) acc'
  end.

Definition str_of_N (n : N) : string := digits_of_N (S (N.size_nat n)) n EmptyString.

Definition str_of_Z (z : Z) : string :=
  match z with
  | Zneg _ => String "-" (str_of_N (Z.to_N (- z)))
  | _ => str_of_N (Z.to_N z)
  end.

(** Truthiness of a [str] value that may be [None]
    ([if client.get('key_path'):]). *)
Definition truthy (o : option string) : bool :=
  match o with
  | Some s => negb (String.eqb s EmptyString)
  | None => false
  end.

(** [str.startswith(prefix)]. *)
Definition startswith (s prefix : string) : bool := String.prefix prefix s.

(** [ch in s] for a one-character string [ch]. *)
Fixpoint str_contains_char (s : string) (ch : ascii) : bool :=
  match s with
  | EmptyString => false
  | String c s' => Ascii.eqb c ch || str_contains_char s' ch
  end.

(** Python's [str.isspace] on U+0000-U+00FF: \t \n \v \f \r, the
    separators \x1c-\x1f, the space, NEL (U+0085) and NO-BREAK SPACE
    (U+00A0). *)
Definition is_py_space (c : ascii) : bool :=
  let n := nat_of_ascii c in
  ((9 <=? n) && (n <=? 13))%nat || ((28 <=? n) && (n <=? 32))%nat ||
  (n =? 133)%nat || (n =? 160)%nat.

Fixpoint py_split_chars (cs : list ascii) (cur : list ascii) : list (list ascii) :=
  match cs with
  | [] => match cur with [] => [] | _ => [rev cur] end
  | c :: cs' =>
      if is_py_space c
      then match cur with
           | [] => py_split_chars cs' []
           | _ => rev cur :: py_split_chars cs' []
           end
      else py_split_chars cs' (c :: cur)
  end.

(** [s.split()]: split on runs of whitespace, dropping empty fields. *)
Definition py_split (s : string) : list string :=
  map string_of_list_ascii (py_split_chars (list_ascii_of_string s) []).

(** A lowercase hex digit ([Py_hexdigits]). *)
Definition hex_digit (n : N) : ascii :=
  ascii_of_N (if (n <? 10)%N then 48 + n else 87 + n)%N.

(** One character of [repr(s)] with quote [q]: the quote and the backslash
    are escaped, \t \n \r by name, the other non-printable characters
    (U+0000-U+001F, U+007F-U+00A0 and the soft hyphen U+00AD) as \xhh. *)
Definition py_repr_char (q c : ascii) : string :=
  let n := N_of_ascii c in
  if Ascii.eqb c q || Ascii.eqb c "\"%char then String "\" (String c EmptyString)
  else if (n =? 9)%N then "\t"
  else if (n =? 10)%N then "\n"
  else if (n =? 13)%N then "\r"
  else if ((n <? 32) || (n =? 127) || ((128 <=? n) && (n <=? 160)) || (n =? 173))%N
  then String "\" (String "x" (String (hex_digit (n / 16)) (String (hex_digit (n mod 16)) EmptyString)))
  else String c EmptyString.

Fixpoint py_repr_body (q : ascii) (s : string) : string :=
  match s with
  | EmptyString => EmptyString
  | String c s' => py_repr_char q c +:+ py_repr_body q s'
  end.

(** [repr(s)]: single quotes, unless [s] contains a single quote and no
    double quote. *)
Definition py_repr_str (s : string) : string :=
  let q := if str_contains_char s "'"%char && negb (str_contains_char s "034"%char)
           then "034"%char else "'"%char in
  String q (py_repr_body q s +:+ String q EmptyString).

(** [repr(l)] / [str(l)] for a list of [str]. *)
Definition py_repr_list (l : list string) : string :=
  "[" +:+ String.concat ", " (map py_repr_str l) +:+ "]".

(** [os.path.join(a, b)]. *)
Definition path_join (a b : string) : string :=
  if startswith b "/" then b
  else if String.eqb a EmptyString then b
  else if String.eqb (substring (String.length a - 1) 1 a) "/" then a +:+ b
  else a +:+ "/" +:+ b.

(* ------------------------------------------------------------------ *)
(** ** Rows of the three tables (src/backend/database.py) *)

(** A row of [clients] as [dict(row)].  [c_use_sudo] is the truthiness of
    [client.get('use_sudo')]. *)
Record client := mkClient {
  c_id : Z;
  c_name : string;
  c_host : string;
  c_port : Z;
  c_username : string;
  c_auth_method : string;
  c_password : option string;
  c_key_path : option string;
  c_use_sudo : bool
}.

(** A row of [jobs]; [enabled] is an INTEGER column, timestamps are
    clock readings. *)
Record job := mkJob {
  j_id : Z;
  j_client_id : Z;
  j_name : string;
  j_source_path : string;
  j_schedule : option string;
  j_enabled : Z;
  j_last_run : option Z
}.

(** A row of [backups] (a Run of the spec). *)
Record backup := mkBackup {
  b_id : Z;
  b_job_id : Z;
  b_status : string;
  b_start_time : Z;
  b_end_time : option Z;
  b_size_bytes : option Z;
  b_file_count : option Z;
  b_error_message : option string;
  b_backup_path : option string
}.

Record store := mkStore {
  st_clients : gmap Z client;
  st_jobs : gmap Z job;
  st_backups : gmap Z backup;
  st_next_backup : Z  (** AUTOINCREMENT counter of [backups] *)
}.

(** An APScheduler job: its cron fields and the argument of the callback. *)
Record sched_job := mkSchedJob { sj_fields : list string; sj_arg : Z }.

(** Everything the manager reads or changes. *)
Record world := mkWorld {
  w_store : store;
  w_clock : Z;                       (** [datetime.now()] *)
  w_dbcalls : nat;                   (** number of [Database] calls so far *)
  w_dblog : list string;             (** names of the [Database] methods called *)
  w_sched : gmap string sched_job;   (** [self.scheduler]'s job table *)
  w_procs : list (list string)       (** argument lists given to [subprocess.run] *)
}.

Definition set_store (s : store) (w : world) : world :=
  mkWorld s (w_clock w) (w_dbcalls w) (w_dblog w) (w_sched w) (w_procs w).
Definition set_clock (t : Z) (w : world) : world :=
  mkWorld (w_store w) t (w_dbcalls w) (w_dblog w) (w_sched w) (w_procs w).
Definition log_dbcall (name : string) (w : world) : world :=
  mkWorld (w_store w) (w_clock w) (S (w_dbcalls w)) (w_dblog w ++ [name])
    (w_sched w) (w_procs w).
Definition set_sched (s : gmap string sched_job) (w : world) : world :=
  mkWorld (w_store w) (w_clock w) (w_dbcalls w) (w_dblog w) s (w_procs w).
Definition log_proc (cmd : list string) (w : world) : world :=
  mkWorld (w_store w) (w_clock w) (w_dbcalls w) (w_dblog w) (w_sched w)
    (w_procs w ++ [cmd]).

(* ------------------------------------------------------------------ *)
(** ** The environment: operating system, subprocess and cron parser *)

(** One file met by [os.walk]: [os.path.exists] true and [getsize] gives a
    size; [os.path.exists] false (the file vanished); or [getsize] raising. *)
Inductive walk_entry := FileSized (n : N) | FileGone | FileRaced.

(** What [subprocess.run(cmd, capture_output=True, text=True, timeout=3600)]
    does: the process completes, the timeout expires, or it raises
    (e.g. FileNotFoundError when the program is missing). *)
Inductive proc_result :=
  | Completed (returncode : Z) (stdout stderr : string)
  | ProcTimeout
  | ProcError (msg : string).

Record Env := mkEnv {
  db_fault : nat -> option string;          (** the n-th [Database] call raises *)
  fs_makedirs : string -> option string;    (** [os.makedirs] raises *)
  fs_walk : string -> list walk_entry;      (** files below a directory *)
  proc_run : list string -> proc_result;    (** [subprocess.run] *)
  cron_trigger : list string -> option string  (** [CronTrigger(...)] raises [ValueError] *)
}.

(** A [Database] whose calls never raise. *)
Definition db_healthy (E : Env) : Prop := forall n, db_fault E n = None.

(* ------------------------------------------------------------------ *)
(** ** A state and exception monad *)

(** Python exceptions the manager distinguishes. *)
Inductive exn :=
  | TimeoutExpired (cmd : list string)
  | PyException (msg : string).

(** [str(e)]; [TimeoutExpired.__str__] is
    ["Command '%s' timed out after %s seconds" % (self.cmd, self.timeout)],
    with the argument list printed as a list and the timeout 3600. *)
Definition str_of_exn (e : exn) : string :=
  match e with
  | TimeoutExpired cmd =>
      "Command '" +:+ py_repr_list cmd +:+ "' timed out after 3600 seconds"
  | PyException m => m
  end.

Inductive outcome (A : Type) := Ret (a : A) | Raise (e : exn).
Arguments Ret {A} a.
Arguments Raise {A} e.

Definition M (A : Type) : Type := world -> world * outcome A.

Definition retM {A} (a : A) : M A := fun w => (w, Ret a).
Definition bindM {A B} (m : M A) (f : A -> M B) : M B :=
  fun w => match m w with
           | (w', Ret a) => f a w'
           | (w', Raise e) => (w', Raise e)
           end.
Definition raiseM {A} (e : exn) : M A := fun w => (w, Raise e).

(** [try: body except ...: handler e]. *)
Definition tryM {A} (body : M A) (handler : exn -> M A) : M A :=
  fun w => match body w with
           | (w', Ret a) => (w', Ret a)
           | (w', Raise e) => handler e w'
           end.

Notation "'let*' x ':=' c1 'in' c2" := (bindM c1 (fun x => c2))
  (at level 200, x name, c1 at level 100, c2 at level 200).

(** [datetime.now()]: the clock reading; the clock then moves on. *)
Definition now : M Z := fun w => (set_clock (w_clock w + 1) w, Ret (w_clock w)).

(* ------------------------------------------------------------------ *)
(** ** The [Database] methods *)

(** [ORDER BY b.start_time DESC]. *)
Definition newest_first (b1 b2 : backup) : Prop := b2.(b_start_time) <= b1.(b_start_time).
#[global] Instance newest_first_dec : RelDecision newest_first.
Proof. intros b1 b2. unfold newest_first. apply _. Defined.

Section Database.
Variable E : Env.

(** A [Database] method: it opens a connection and runs its query, or
    raises with the sqlite3 error the oracle gives for this call. *)
Definition db_call {A} (name : string) (body : M A) : M A :=
  fun w =>
    let n := w_dbcalls w in
    let w1 := log_dbcall name w in
    match db_fault E n with
    | Some m => (w1, Raise (PyException m))
    | None => body w1
    end.

Definition read_store {A} (f : store -> A) : M A := fun w => (w, Ret (f (w_store w))).
Definition write_store (f : store -> store) : M unit :=
  fun w => (set_store (f (w_store w)) w, Ret tt).

Definition get_client (client_id : Z) : M (option client) :=
  db_call "get_client" (read_store (fun s => st_clients s !! client_id)).

Definition get_job (job_id : Z) : M (option job) :=
  db_call "get_job" (read_store (fun s => st_jobs s !! job_id)).

(** [get_backup] joins the job's [source_path] (LEFT JOIN: [None] when the
    job row is gone). *)
Definition get_backup (backup_id : Z) : M (option (backup * option string)) :=
  db_call "get_backup" (read_store (fun s =>
    match st_backups s !! backup_id with
    | Some b => Some (b, j_source_path <$> st_jobs s !! b_job_id b)
    | None => None
    end)).

Definition get_all_clients : M (list client) :=
  db_call "get_all_clients" (read_store (fun s => map snd (map_to_list (st_clients s)))).

Definition get_all_jobs : M (list job) :=
  db_call "get_all_jobs" (read_store (fun s => map snd (map_to_list (st_jobs s)))).

(** [ORDER BY b.start_time DESC LIMIT ?]. *)
Definition backups_by_recency (s : store) (limit : nat) : list backup :=
  take limit (merge_sort newest_first (map snd (map_to_list (st_backups s)))).

Definition get_all_backups (limit : nat) : M (list backup) :=
  db_call "get_all_backups" (read_store (fun s => backups_by_recency s limit)).

Definition insert_backup (b : backup) (s : store) : store :=
  mkStore (st_clients s) (st_jobs s) (<[b_id b := b]> (st_backups s)) (st_next_backup s + 1).

Definition add_backup (job_id : Z) (status : string) (start_time : Z)
    (backup_path : option string) : M Z :=
  db_call "add_backup" (fun w =>
    let s := w_store w in
    let id := st_next_backup s in
    (set_store (insert_backup (mkBackup id job_id status start_time None None None None backup_path) s) w,
     Ret id)).

(** The [UPDATE backups SET ...]: each field is set only when the argument is
    given ([if status:], [if end_time:], [if size_bytes is not None:], ...). *)
Definition apply_backup_update (status : option string) (end_time : option Z)
    (size_bytes file_count : option Z) (error_message : option string) (b : backup) : backup :=
  mkBackup (b_id b) (b_job_id b)
    (match status with Some st => if truthy status then st else b_status b | None => b_status b end)
    (b_start_time b)
    (match end_time with Some t => Some t | None => b_end_time b end)
    (match size_bytes with Some n => Some n | None => b_size_bytes b end)
    (match file_count with Some n => Some n | None => b_file_count b end)
    (match error_message with Some m => if truthy error_message then Some m else b_error_message b
     | None => b_error_message b end)
    (b_backup_path b).

Definition update_backup (backup_id : Z) (status : option string) (end_time : option Z)
    (size_bytes file_count : option Z) (error_message : option string) : M unit :=
  db_call "update_backup" (write_store (fun s =>
    mkStore (st_clients s) (st_jobs s)
      (alter (apply_backup_update status end_time size_bytes file_count error_message)
         backup_id (st_backups s))
      (st_next_backup s))).

Definition set_last_run (t : Z) (j : job) : job :=
  mkJob (j_id j) (j_client_id j) (j_name j) (j_source_path j) (j_schedule j) (j_enabled j) (Some t).

(** [UPDATE jobs SET last_run = datetime.now() WHERE id = ?]. *)
Definition update_job_last_run (job_id : Z) : M unit :=
  db_call "update_job_last_run" (
    let* t := now in
    write_store (fun s =>
      mkStore (st_clients s) (alter (set_last_run t) job_id (st_jobs s))
        (st_backups s) (st_next_backup s))).

End Database.

(* ------------------------------------------------------------------ *)
(** ** [BackupManager] (src/backend/backup_manager.py) *)

(** The return values of [run_backup_job] and [restore_backup] (dicts with a
    [success] flag). *)
Inductive run_result :=
  | RunSucceeded (backup_id : Z) (size_bytes file_count : N)
  | RunFailed (error : string).

Inductive restore_result :=
  | RestoreSucceeded (message : string)
  | RestoreFailed (error : string).

(** The dict returned by [get_statistics]; [total_size_gb] is kept as a
    number of hundredths h, standing for the double nearest h / 100. *)
Record stats := mkStats {
  total_clients : nat;
  total_jobs : nat;
  enabled_jobs : nat;
  total_backups : nat;
  successful_backups : nat;
  failed_backups : nat;
  total_size_bytes : Z;
  total_size_gb_hundredths : Z
}.

(** [_build_rsync_command(client, source_path, dest_path)]. *)
Definition ssh_command (c : client) : string :=
  "ssh -p " +:+ str_of_Z (c_port c) +:+ " -o StrictHostKeyChecking=no"
  +:+ (match c_key_path c with
       | Some k => if truthy (c_key_path c) then " -i " +:+ k else ""
       | None => ""
       end).

Definition sudo_args (c : client) : list string :=
  if c_use_sudo c then ["--rsync-path"; "sudo rsync"] else [].

Definition remote_spec (c : client) (path : string) : string :=
  c_username c +:+ "@" +:+ c_host c +:+ ":" +:+ path.

(** [if client.get('password') and not client.get('key_path'):
       rsync_cmd = ['sshpass', '-p', client['password']] + rsync_cmd]. *)
Definition with_sshpass (c : client) (cmd : list string) : list string :=
  match c_password c with
  | Some pw =>
      if truthy (c_password c) && negb (truthy (c_key_path c))
      then ["sshpass"; "-p"; pw] ++ cmd else cmd
  | None => cmd
  end.

Definition build_rsync_command (c : client) (source_path dest_path : string) : list string :=
  with_sshpass c
    (["rsync"; "-avz"; "--delete"; "-e"; ssh_command c] ++ sudo_args c
     ++ [remote_spec c source_path; dest_path]).

(** The command built inline by [restore_backup]; [None] when
    [backup['backup_path'] + '/'] raises (a NULL [backup_path]). *)
Definition build_restore_command (c : client) (backup_path : option string)
    (restore_path : string) : option (list string) :=
  match backup_path with
  | Some bp =>
      Some (with_sshpass c
        (["rsync"; "-avz"; "-e"; ssh_command c] ++ sudo_args c
         ++ [bp +:+ "/"; remote_spec c restore_path]))
  | None => None
  end.

(** [_calculate_directory_size]: a [getsize] that raises ends the walk,
    the [except] keeps the total so far. *)
Fixpoint dir_size_from (es : list walk_entry) (total : N) : N :=
  match es with
  | [] => total
  | FileSized n :: es' => dir_size_from es' (total + n)
  | FileGone :: es' => dir_size_from es' total
  | FileRaced :: _ => total
  end.

(** [dangerous_chars = [';', '&', '|', '`', '$', '\n', '\r']]. *)
Definition dangerous_chars : list ascii :=
  [";"%char; "&"%char; "|"%char; "`"%char; "$"%char; "010"%char; "013"%char].

(** [float(n)] for an [int] n: the nearest double, ties to even.  Every
    double of magnitude at least 2^52 is an integer, so the result is kept
    as the integer it equals; it is n itself when |n| <= 2^53. *)
Definition py_float_of_int (n : Z) : Z :=
  let a := Z.abs n in
  let e := Z.log2 a - 52 in
  if e <=? 0 then n
  else
    let q := a / 2 ^ e in
    let r := a mod 2 ^ e in
    let h := 2 ^ (e - 1) in
    let q' := if r <? h then q else if h <? r then q + 1
              else if Z.even q then q else q + 1 in
    Z.sgn n * (q' * 2 ^ e).

(** [n / 2**k] for [int]s is the double nearest the exact quotient; for a
    non-zero integer n that is [float(n)] scaled by 2^-k (no subnormal
    arises), so the quotient is the exact fraction [py_float_of_int n / 2^k].
    It raises [OverflowError] when that double would reach 2^1024. *)
Definition py_true_div_overflows (n k : Z) : bool :=
  2 ^ (1024 + k) <=? Z.abs (py_float_of_int n).

(** [round(q, 2)] for a double q whose exact value is the fraction x / d
    (d > 0), as a number of hundredths: CPython's [float.__round__] rounds
    the exact binary value of q to 2 decimals with ties to even (then reads
    that decimal back as the nearest double, the float [hundredths / 100]). *)
Definition py_round2_div (x d : Z) : Z :=
  let q := (x * 100) / d in
  let r := (x * 100) mod d in
  if 2 * r <? d then q
  else if d <? 2 * r then q + 1
  else if Z.even q then q else q + 1.

Definition completed_size (b : backup) : Z :=
  match b_size_bytes b with Some n => n | None => 0 end.

Section Manager.
Variable E : Env.
Variable backup_dir : string.

Definition calculate_directory_size (path : string) : N := dir_size_from (fs_walk E path) 0.

(** [_count_files]: one per file name listed by [os.walk]. *)
Definition count_files (path : string) : N := N.of_nat (List.length (fs_walk E path)).

(** [datetime.strftime('%Y%m%d_%H%M%S')] of a clock reading. *)
Definition strftime (t : Z) : string := str_of_Z t.

Definition makedirs (path : string) : M unit :=
  match fs_makedirs E path with
  | Some m => raiseM (PyException m)
  | None => retM tt
  end.

Definition subprocess_run (cmd : list string) : M (Z * string * string) :=
  fun w =>
    let w' := log_proc cmd w in
    match proc_run E cmd with
    | Completed rc out err => (w', Ret (rc, out, err))
    | ProcTimeout => (w', Raise (TimeoutExpired cmd))
    | ProcError m => (w', Raise (PyException m))
    end.

(** [result.stderr or result.stdout]. *)
Definition captured_error (out err : string) : string :=
  if String.eqb err EmptyString then out else err.

Definition backup_timeout_msg : string := "Backup timed out after 1 hour".

(** The [except] clauses of [run_backup_job]. *)
Definition run_backup_handler (backup_id : Z) (e : exn) : M run_result :=
  match e with
  | TimeoutExpired _ =>
      let error_msg := backup_timeout_msg in
      let* t := now in
      let* _ := update_backup E backup_id (Some "failed") (Some t) None None (Some error_msg) in
      retM (RunFailed error_msg)
  | PyException m =>
      let error_msg := m in
      let* t := now in
      let* _ := update_backup E backup_id (Some "failed") (Some t) None None (Some error_msg) in
      retM (RunFailed error_msg)
  end.

(** The [try] body of [run_backup_job]. *)
Definition run_backup_body (j : job) (c : client) (job_id backup_id : Z)
    (backup_path : string) : M run_result :=
  let rsync_cmd := build_rsync_command c (j_source_path j) backup_path in
  let* result := subprocess_run rsync_cmd in
  let '(returncode, stdout, stderr) := result in
  let size_bytes := calculate_directory_size backup_path in
  let file_count := count_files backup_path in
  if returncode =? 0 then
    let* t := now in
    let* _ := update_backup E backup_id (Some "completed") (Some t)
                (Some (Z.of_N size_bytes)) (Some (Z.of_N file_count)) None in
    let* _ := update_job_last_run E job_id in
    retM (RunSucceeded backup_id size_bytes file_count)
  else
    let error_msg := captured_error stdout stderr in
    let* t := now in
    let* _ := update_backup E backup_id (Some "failed") (Some t) None None (Some error_msg) in
    retM (RunFailed error_msg).

Definition backup_path_of (j : job) (start_time : Z) : string :=
  let backup_name := j_name j +:+ "_" +:+ strftime start_time in
  path_join (path_join backup_dir (str_of_Z (j_client_id j))) backup_name.

Definition run_backup_job (job_id : Z) : M run_result :=
  let* job := get_job E job_id in
  match job with
  | None => retM (RunFailed "Job not found")
  | Some j =>
      let* client := get_client E (j_client_id j) in
      match client with
      | None => retM (RunFailed "Client not found")
      | Some c =>
          let* start_time := now in
          let backup_path := backup_path_of j start_time in
          let* _ := makedirs backup_path in
          let* backup_id := add_backup E job_id "running" start_time (Some backup_path) in
          tryM (run_backup_body j c job_id backup_id backup_path)
               (run_backup_handler backup_id)
      end
  end.

(** [restore_path.startswith('/')] and
    [not any(char in restore_path for char in dangerous_chars)]. *)
Definition restore_path_absolute (p : string) : bool := startswith p "/".
Definition restore_path_clean (p : string) : bool :=
  negb (existsb (str_contains_char p) dangerous_chars).

(** [if not restore_path: restore_path = backup['source_path']]. *)
Definition restore_destination (restore_path source_path : option string) : option string :=
  if truthy restore_path then restore_path else source_path.

Definition restore_transfer (c : client) (b : backup) (restore_path : string) : M restore_result :=
  tryM
    (match build_restore_command c (b_backup_path b) restore_path with
     | None => raiseM (PyException "unsupported operand type(s) for +: 'NoneType' and 'str'")
     | Some rsync_cmd =>
         let* result := subprocess_run rsync_cmd in
         let '(returncode, stdout, stderr) := result in
         if returncode =? 0 then retM (RestoreSucceeded "Restore completed successfully")
         else retM (RestoreFailed (captured_error stdout stderr))
     end)
    (fun e => retM (RestoreFailed (str_of_exn e))).

Definition restore_backup (backup_id : Z) (restore_path : option string) : M restore_result :=
  let* bk := get_backup E backup_id in
  match bk with
  | None => retM (RestoreFailed "Backup not found")
  | Some (b, source_path) =>
      let* job := get_job E (b_job_id b) in
      match job with
      | None => retM (RestoreFailed "Job not found")
      | Some j =>
          let* client := get_client E (j_client_id j) in
          match client with
          | None => retM (RestoreFailed "Client not found")
          | Some c =>
              match restore_destination restore_path source_path with
              | None => raiseM (PyException "'NoneType' object has no attribute 'startswith'")
              | Some p =>
                  if negb (restore_path_absolute p)
                  then retM (RestoreFailed "Restore path must be absolute")
                  else if negb (restore_path_clean p)
                  then retM (RestoreFailed "Invalid restore path")
                  else restore_transfer c b p
              end
          end
      end
  end.

(** [CronTrigger(minute=..., hour=..., day=..., month=..., day_of_week=...)]. *)
Definition cron_trigger_M (parts : list string) : M unit :=
  match cron_trigger E parts with
  | Some m => raiseM (PyException m)
  | None => retM tt
  end.

(** [self.scheduler.add_job(..., id=f"job_{job_id}", replace_existing=True)]. *)
Definition scheduler_add_job (id : string) (sj : sched_job) : M unit :=
  fun w => (set_sched (<[id := sj]> (w_sched w)) w, Ret tt).

Definition sched_id (job_id : Z) : string := "job_" +:+ str_of_Z job_id.

Definition schedule_job (job_id : Z) : M unit :=
  let* job := get_job E job_id in
  match job with
  | None => retM tt
  | Some j =>
      match j_schedule j with
      | Some s =>
          if negb (truthy (j_schedule j)) then retM tt
          else tryM
                 (let parts := py_split s in
                  if negb (List.length parts =? 5)%nat then retM tt
                  else let* _ := cron_trigger_M parts in
                       scheduler_add_job (sched_id job_id) (mkSchedJob parts job_id))
                 (fun _ => retM tt)
      | None => retM tt
      end
  end.

Definition count_status (st : string) (bs : list backup) : nat :=
  List.length (List.filter (fun b => String.eqb (b_status b) st) bs).

Definition sum_completed_sizes (bs : list backup) : Z :=
  fold_right Z.add 0
    (map completed_size (List.filter (fun b => String.eqb (b_status b) "completed") bs)).

(** The dict built by [get_statistics], with
    [round(total_size / (1024**3), 2)] for [total_size_gb]; [None] when that
    division raises [OverflowError]. *)
Definition statistics_of (clients : list client) (jobs : list job) (backups : list backup)
    : option stats :=
  let total_size := sum_completed_sizes backups in
  if py_true_div_overflows total_size 30 then None
  else Some (mkStats (List.length clients) (List.length jobs)
    (List.length (List.filter (fun j => negb (j_enabled j =? 0)) jobs))
    (List.length backups)
    (count_status "completed" backups) (count_status "failed" backups)
    total_size (py_round2_div (py_float_of_int total_size) (1024 ^ 3))).

(** [get_statistics]; [None] is the [{}] returned by the [except]. *)
Definition get_statistics : M (option stats) :=
  tryM
    (let* clients := get_all_clients E in
     let* jobs := get_all_jobs E in
     let* backups := get_all_backups E 1000 in
     match statistics_of clients jobs backups with
     | Some st => retM (Some st)
     | None => raiseM (PyException "integer division result too large for a float")
     end)
    (fun _ => retM None).

End Manager.


(* ------------------------------------------------------------------ *)
(** ** More of the [Database] (src/backend/database.py) *)

Section DatabaseMore.
Variable E : Env.

(** [SELECT * FROM backups WHERE job_id = ? ORDER BY start_time DESC LIMIT ?]. *)
Definition job_history_of (s : store) (job_id : Z) (limit : nat) : list backup :=
  take limit (merge_sort newest_first
    (List.filter (fun b => b_job_id b =? job_id) (map snd (map_to_list (st_backups s))))).

(** [get_job_history(job_id, limit=50)]. *)
Definition get_job_history (job_id : Z) (limit : nat) : M (list backup) :=
  db_call E "get_job_history" (read_store (fun s => job_history_of s job_id limit)).

(** [DELETE FROM jobs WHERE id = ?].  The connection never issues
    [PRAGMA foreign_keys = ON], so sqlite3 does not enforce the
    [FOREIGN KEY ... ON DELETE CASCADE] of [backups]: the job's rows stay. *)
Definition delete_job (job_id : Z) : M unit :=
  db_call E "delete_job" (write_store (fun s =>
    mkStore (st_clients s) (delete job_id (st_jobs s)) (st_backups s) (st_next_backup s))).

(** [DELETE FROM clients WHERE id = ?]; as above, the client's jobs stay. *)
Definition delete_client (client_id : Z) : M unit :=
  db_call E "delete_client" (write_store (fun s =>
    mkStore (delete client_id (st_clients s)) (st_jobs s) (st_backups s) (st_next_backup s))).

End DatabaseMore.

(* ------------------------------------------------------------------ *)
(** ** More of [BackupManager], and its callers in src/app.py *)

Section ManagerMore.
Variable E : Env.

(** [self.scheduler.remove_job(id)]: raises [JobLookupError] for an id it
    does not hold. *)
Definition scheduler_remove_job (id : string) : M unit :=
  fun w =>
    match w_sched w !! id with
    | Some _ => (set_sched (delete id (w_sched w)) w, Ret tt)
    | None => (w, Raise (PyException ("No job by the id of " +:+ id +:+ " was found")))
    end.

(** [unschedule_job]: the [except] swallows the lookup error. *)
Definition unschedule_job (job_id : Z) : M unit :=
  tryM (scheduler_remove_job (sched_id job_id)) (fun _ => retM tt).

(** The loop of [_load_scheduled_jobs]: [if job['enabled'] and job['schedule']],
    then [schedule_job] under a [try] whose [except] only logs. *)
Fixpoint load_jobs (jobs : list job) : M unit :=
  match jobs with
  | [] => retM tt
  | j :: js =>
      let* _ := if negb (j_enabled j =? 0) && truthy (j_schedule j)
                then tryM (schedule_job E (j_id j)) (fun _ => retM tt)
                else retM tt in
      load_jobs js
  end.

Definition load_scheduled_jobs : M unit :=
  let* jobs := get_all_jobs E in
  load_jobs jobs.

(** [BackupManager.__init__]: a fresh, started [BackgroundScheduler], then
    [_load_scheduled_jobs]. *)
Definition init_manager : M unit :=
  fun w => load_scheduled_jobs (set_sched ∅ w).

(** [job_detail] of src/app.py with method DELETE:
    [backup_manager.unschedule_job(job_id); db.delete_job(job_id)]. *)
Definition api_delete_job (job_id : Z) : M unit :=
  let* _ := unschedule_job job_id in
  delete_job E job_id.

(** The responses of [run_job] in src/app.py: [jsonify(result)], or the
    error dict sent with status 400 when [run_backup_job] raises. *)
Inductive run_response := RunJson (r : run_result) | RunHttp400 (error : string).

Definition api_run_job (backup_dir : string) (job_id : Z) : M run_response :=
  tryM (let* r := run_backup_job E backup_dir job_id in retM (RunJson r))
       (fun _ => retM (RunHttp400 "Failed to run backup job")).

(** [client_detail] of src/app.py with method DELETE: [db.delete_client(client_id)]. *)
Definition api_delete_client (client_id : Z) : M unit :=
  delete_client E client_id.

End ManagerMore.

(** [int(s)] for the decimal strings [str] produces: an optional '-' and
    digits, read left to right. *)
Fixpoint dec_val (s : string) (a : N) : N :=
  match s with
  | EmptyString => a
  | String c s' => dec_val s' (a * 10 + (N_of_ascii c - 48))
  end.

Definition int_of_str (s : string) : Z :=
  match s with
  | String c s' => if Ascii.eqb c "-" then - Z.of_N (dec_val s' 0) else Z.of_N (dec_val s 0)
  | EmptyString => 0
  end.

(** The sum of the sizes [os.walk] would report with no file vanishing or
    racing. *)
Fixpoint listed_size (es : list walk_entry) : N :=
  match es with
  | [] => 0
  | FileSized n :: es' => n + listed_size es'
  | _ :: es' => listed_size es'
  end.

(** The fields [schedule_job] registers a trigger with, for a job row. *)
Definition sched_trigger (E : Env) (j : job) : option (list string) :=
  match j_schedule j with
  | Some s =>
      if truthy (Some s) && (List.length (py_split s) =? 5)%nat
      then match cron_trigger E (py_split s) with None => Some (py_split s) | Some _ => None end
      else None
  | None => None
  end.

(** The trigger [_load_scheduled_jobs] leaves for one job row: the loop
    skips disabled jobs, and [schedule_job] registers [sched_trigger]. *)
Definition load_step E (m : gmap string sched_job) (j : job) : gmap string sched_job :=
  if negb (j_enabled j =? 0) then
    match sched_trigger E j with
    | Some p => <[sched_id (j_id j) := mkSchedJob p (j_id j)]> m
    | None => m
    end
  else m.


(* ------------------------------------------------------------------ *)
(** ** Concrete inputs *)

(** A client with both a key and a password, and sudo enabled. *)
Definition demo_client : client :=
  mkClient 1 "pi" "10.0.0.5" 22 "pi" "key" (Some "pw") (Some "/keys/pi") true.

(** A disabled job with a daily schedule. *)
Definition demo_job : job :=
  mkJob 1 1 "home" "/home/pi" (Some "0 2 * * *") 0 None.

Definition demo_world : world :=
  mkWorld (mkStore {[1 := demo_client]} {[1 := demo_job]} ∅ 1) 100 0 [] ∅ [].

(** The same world after a completed backup 1 of job 1. *)
Definition demo_backup : backup :=
  mkBackup 1 1 "completed" 100 (Some 101) (Some 400) (Some 2) None
    (Some "/data/backups/1/home_100").

Definition restore_world : world :=
  mkWorld (mkStore {[1 := demo_client]} {[1 := demo_job]} {[1 := demo_backup]} 2) 200 0 [] ∅ [].

(** A healthy database, a writable disk holding two files after the
    transfer, a cron parser accepting every field, and [subprocess.run]
    behaving as [r]. *)
Definition demo_env (r : proc_result) : Env :=
  mkEnv (fun _ => None) (fun _ => None) (fun _ => [FileSized 100; FileSized 300])
    (fun _ => r) (fun _ => None).

(** As [demo_env (Completed 0 "" "")], but the fifth [Database] call
    (index 4: [update_job_last_run] in [run_backup_job]) raises. *)
Definition locked_env : Env :=
  mkEnv (fun n => if (n =? 4)%nat then Some "database is locked" else None)
    (fun _ => None) (fun _ => [FileSized 100; FileSized 300])
    (fun _ => Completed 0 "" "") (fun _ => None).

Definition run_at (id job_id start : Z) (status : string) (size : option Z) : backup :=
  mkBackup id job_id status start (Some (start + 1)) size None None None.

(** Three runs: two completed of 100 and 300 bytes, one failed. *)
Definition stats_scenario : world :=
  mkWorld (mkStore ∅ ∅ {[1 := run_at 1 1 10 "completed" (Some 100);
                         2 := run_at 2 1 20 "completed" (Some 300);
                         3 := run_at 3 1 30 "failed" None]} 4) 40 0 [] ∅ [].

(** A disk on which [os.makedirs] raises. *)
Definition readonly_env : Env :=
  mkEnv (fun _ => None) (fun _ => Some "[Errno 30] Read-only file system") (fun _ => [])
    (fun _ => Completed 0 "" "") (fun _ => None).

(** One completed run whose size is just above 2^53 bytes. *)
Definition large_world : world :=
  mkWorld (mkStore ∅ ∅ {[1 := run_at 1 1 10 "completed" (Some 9007199313796793)]} 2)
    40 0 [] ∅ [].

(* ------------------------------------------------------------------ *)
(** ** Proofs *)

Ltac unfold_monad :=
  unfold bindM, retM, raiseM, tryM, db_call, read_store, write_store, now,
    subprocess_run, makedirs, cron_trigger_M, scheduler_add_job in *.

Lemma restore_transfer_frame E c b p w :
  let w' := fst (restore_transfer E c b p w) in
  w_store w' = w_store w /\ w_sched w' = w_sched w /\ w_dblog w' = w_dblog w.
Proof.
  unfold restore_transfer; unfold_monad.
  repeat (case_match; simplify_eq/=); auto.
Qed.

(** C9: [restore_backup] never changes the store (no backup row is added,
    no backup, job or client row is modified, [last_run] included) nor the
    scheduler, whatever its outcome; the only [Database] methods it calls
    are [get_backup], [get_job] and [get_client]. *)
Theorem restore_backup_store_frame E backup_id restore_path w :
  let w' := fst (restore_backup E backup_id restore_path w) in
  w_store w' = w_store w /\ w_sched w' = w_sched w /\
  exists calls, w_dblog w' = w_dblog w ++ calls /\
    Forall (fun m => m = "get_backup" \/ m = "get_job" \/ m = "get_client")%string calls.
Proof.
  unfold restore_backup, get_backup, get_job, get_client; unfold_monad.
  repeat (case_match; simplify_eq/=);
  try (match goal with |- context [restore_transfer ?E ?c ?b ?p ?w0] =>
         destruct (restore_transfer_frame E c b p w0) as (Hs & Hsch & Hl);
         rewrite Hs, Hsch, Hl end);
  unfold log_dbcall; cbn;
  repeat split; auto;
  eexists; (split; [rewrite <- ?app_assoc; reflexivity|]); 
  repeat (constructor;
          [first [left; reflexivity | right; left; reflexivity | right; right; reflexivity] |]);
  constructor.
Qed.

Lemma restore_transfer_procs E c b p w :
  w_procs (fst (restore_transfer E c b p w)) = w_procs w \/
  exists cmd, build_restore_command c (b_backup_path b) p = Some cmd /\
    w_procs (fst (restore_transfer E c b p w)) = w_procs w ++ [cmd].
Proof.
  unfold restore_transfer; unfold_monad.
  destruct (build_restore_command c (b_backup_path b) p) as [cmd|] eqn:Hc; [|left; reflexivity].
  right; exists cmd; split; [reflexivity|].
  destruct (proc_run E cmd) as [rc out err| |m]; cbn; [destruct (rc =? 0)|..]; reflexivity.
Qed.

(** C1: [restore_backup] validates the destination (the override path when it is
    a non-empty string, else the job's source path) before building any
    command: a [subprocess.run] happens only for a destination that starts
    with '/' and contains none of ; & | ` $ newline carriage-return, and
    then runs exactly the restore command for it; a destination failing a
    check runs nothing and, with a working database, returns the failure
    "Restore path must be absolute" or "Invalid restore path".
    "etc/passwd" and "/tmp/x; rm -rf /" both fail a check. *)
Theorem restore_backup_validates_destination E backup_id restore_path w :
  let w' := fst (restore_backup E backup_id restore_path w) in
  let r := snd (restore_backup E backup_id restore_path w) in
  (w_procs w' <> w_procs w ->
   exists b j c p cmd,
     st_backups (w_store w) !! backup_id = Some b /\
     st_jobs (w_store w) !! b_job_id b = Some j /\
     st_clients (w_store w) !! j_client_id j = Some c /\
     restore_destination restore_path (Some (j_source_path j)) = Some p /\
     restore_path_absolute p = true /\ restore_path_clean p = true /\
     build_restore_command c (b_backup_path b) p = Some cmd /\
     w_procs w' = w_procs w ++ [cmd]) /\
  (forall b j c p,
     st_backups (w_store w) !! backup_id = Some b ->
     st_jobs (w_store w) !! b_job_id b = Some j ->
     st_clients (w_store w) !! j_client_id j = Some c ->
     restore_destination restore_path (Some (j_source_path j)) = Some p ->
     restore_path_absolute p = false \/ restore_path_clean p = false ->
     w_procs w' = w_procs w /\
     (db_healthy E ->
      r = Ret (RestoreFailed (if restore_path_absolute p then "Invalid restore path"
                              else "Restore path must be absolute")))) /\
  restore_path_absolute "etc/passwd" = false /\
  restore_path_clean "/tmp/x; rm -rf /" = false.
Proof.
  cbv zeta. split; [|split; [|split; reflexivity]].
  - unfold restore_backup, get_backup, get_job, get_client; unfold_monad.
    repeat (case_match; simplify_eq/=); try (intros Hne; exfalso; apply Hne; reflexivity).
    destruct (restore_transfer_procs E c b s
                (log_dbcall "get_client" (log_dbcall "get_job" (log_dbcall "get_backup" w))))
      as [Hp|(cmd & Hcmd & Hp)]; rewrite Hp; cbn; [intros Hne; exfalso; apply Hne; reflexivity|].
    intros _. exists b, j, c, s, cmd.
    rewrite negb_false_iff in *. repeat split; auto.
  - intros b j c p Hb Hj Hc Hp Hbad.
    unfold restore_backup, get_backup, get_job, get_client; unfold_monad.
    repeat (case_match; simplify_eq/=);
      try (split; [reflexivity | intros HE; match goal with H : db_fault _ _ = Some _ |- _ =>
                                   rewrite HE in H; discriminate end]);
      rewrite ?negb_true_iff, ?negb_false_iff in *;
      try (destruct Hbad; congruence).
    all: split; [reflexivity | intros _; reflexivity].
Qed.

Lemma alter_existing {V} (f : V -> V) (k : Z) (v : V) (m : gmap Z V) :
  m !! k = Some v -> alter f k m = <[k := f v]> m.
Proof.
  intros Hk. apply map_eq; intros i. rewrite lookup_alter, lookup_insert.
  case_decide; subst; [rewrite Hk|]; reflexivity.
Qed.

(** C2: with a working database, an existing job and client, and a transfer
    exiting 0, [run_backup_job] inserts exactly one new backup row, finalized
    as completed with an end time, the recursive byte sum and file count of
    the artifact directory (both >= 0); it sets the job's [last_run] to the
    current clock and returns success with that size and count. *)
Theorem run_backup_job_completed E backup_dir job_id w j c out err :
  db_healthy E ->
  (forall k, k ∈ dom (st_backups (w_store w)) -> k < st_next_backup (w_store w)) ->
  st_jobs (w_store w) !! job_id = Some j ->
  st_clients (w_store w) !! j_client_id j = Some c ->
  let t0 := w_clock w in
  let path := backup_path_of backup_dir j t0 in
  fs_makedirs E path = None ->
  proc_run E (build_rsync_command c (j_source_path j) path) = Completed 0 out err ->
  let bid := st_next_backup (w_store w) in
  let size := calculate_directory_size E path in
  let count := count_files E path in
  let w' := fst (run_backup_job E backup_dir job_id w) in
  snd (run_backup_job E backup_dir job_id w) = Ret (RunSucceeded bid size count) /\
  st_backups (w_store w) !! bid = None /\
  st_backups (w_store w') =
    <[bid := mkBackup bid job_id "completed" t0 (Some (t0 + 1)) (Some (Z.of_N size))
               (Some (Z.of_N count)) None (Some path)]> (st_backups (w_store w)) /\
  st_jobs (w_store w') = <[job_id := set_last_run (t0 + 2) j]> (st_jobs (w_store w)) /\
  0 <= Z.of_N size /\ 0 <= Z.of_N count.
Proof.
  intros HE Hwf Hj Hc t0 path Hmk Hrun bid size count w'.
  subst w'.
  unfold run_backup_job, run_backup_body, run_backup_handler, get_job, get_client, add_backup,
    update_backup, update_job_last_run; unfold_monad.
  rewrite !HE. cbn. rewrite Hj. cbn. rewrite HE. cbn. rewrite Hc. cbn.
  fold t0 path. rewrite Hmk. cbn. rewrite HE. cbn. rewrite Hrun. cbn.
  rewrite !HE. cbn.
  split; [reflexivity|]. split.
  { destruct (st_backups (w_store w) !! bid) as [b|] eqn:Hb; [|reflexivity].
    exfalso. pose proof (Hwf bid (elem_of_dom_2 _ _ _ Hb)). lia. }
  split; [rewrite alter_insert_eq; reflexivity|].
  split; [rewrite (alter_existing _ _ j) by exact Hj; replace (t0 + 1 + 1) with (t0 + 2) by lia; reflexivity|].
  split; apply N2Z.is_nonneg.
Qed.

(** C3 (amended): with a working database, an existing job and client, and a
    transfer exiting with a non-zero code, [run_backup_job] inserts exactly
    one backup row, finalized as failed with an end time; the error text is
    stderr when non-empty, else stdout (possibly empty, and then no error
    message is stored); [last_run] is unchanged and the result is a failure
    carrying that text. *)
Theorem run_backup_job_nonzero_exit E backup_dir job_id w j c rc out err :
  db_healthy E ->
  (forall k, k ∈ dom (st_backups (w_store w)) -> k < st_next_backup (w_store w)) ->
  st_jobs (w_store w) !! job_id = Some j ->
  st_clients (w_store w) !! j_client_id j = Some c ->
  let t0 := w_clock w in
  let path := backup_path_of backup_dir j t0 in
  fs_makedirs E path = None ->
  proc_run E (build_rsync_command c (j_source_path j) path) = Completed rc out err ->
  rc <> 0 ->
  let bid := st_next_backup (w_store w) in
  let msg := captured_error out err in
  let w' := fst (run_backup_job E backup_dir job_id w) in
  snd (run_backup_job E backup_dir job_id w) = Ret (RunFailed msg) /\
  msg = (if String.eqb err "" then out else err) /\
  st_backups (w_store w) !! bid = None /\
  st_backups (w_store w') =
    <[bid := mkBackup bid job_id "failed" t0 (Some (t0 + 1)) None None
               (if String.eqb msg "" then None else Some msg) (Some path)]>
      (st_backups (w_store w)) /\
  st_jobs (w_store w') = st_jobs (w_store w).
Proof.
  intros HE Hwf Hj Hc t0 path Hmk Hrun Hrc bid msg w'.
  subst w'.
  unfold run_backup_job, run_backup_body, run_backup_handler, get_job, get_client, add_backup,
    update_backup, update_job_last_run; unfold_monad.
  rewrite !HE. cbn. rewrite Hj. cbn. rewrite HE. cbn. rewrite Hc. cbn.
  fold t0 path. rewrite Hmk. cbn. rewrite HE. cbn. rewrite Hrun. cbn.
  apply Z.eqb_neq in Hrc. rewrite Hrc. cbn. rewrite !HE. cbn.
  split; [reflexivity|]. split; [reflexivity|]. split.
  { destruct (st_backups (w_store w) !! bid) as [b|] eqn:Hb; [|reflexivity].
    exfalso. pose proof (Hwf bid (elem_of_dom_2 _ _ _ Hb)). lia. }
  split; [|reflexivity].
  rewrite alter_insert_eq. fold msg. unfold apply_backup_update; cbn.
  destruct (String.eqb msg ""); reflexivity.
Qed.

(** C6 (amended): with a working database, an existing job and client, and a
    transfer hitting the 3600 s timeout, [run_backup_job] finalizes its
    backup row as failed with an end time and the fixed message
    "Backup timed out after 1 hour" (no row is left running), leaves
    [last_run] unchanged and returns failure with that message. *)
Theorem run_backup_job_timeout E backup_dir job_id w j c :
  db_healthy E ->
  (forall k, k ∈ dom (st_backups (w_store w)) -> k < st_next_backup (w_store w)) ->
  st_jobs (w_store w) !! job_id = Some j ->
  st_clients (w_store w) !! j_client_id j = Some c ->
  let t0 := w_clock w in
  let path := backup_path_of backup_dir j t0 in
  fs_makedirs E path = None ->
  proc_run E (build_rsync_command c (j_source_path j) path) = ProcTimeout ->
  let bid := st_next_backup (w_store w) in
  let w' := fst (run_backup_job E backup_dir job_id w) in
  snd (run_backup_job E backup_dir job_id w) = Ret (RunFailed "Backup timed out after 1 hour") /\
  st_backups (w_store w) !! bid = None /\
  st_backups (w_store w') =
    <[bid := mkBackup bid job_id "failed" t0 (Some (t0 + 1)) None None
               (Some "Backup timed out after 1 hour") (Some path)]>
      (st_backups (w_store w)) /\
  st_jobs (w_store w') = st_jobs (w_store w).
Proof.
  intros HE Hwf Hj Hc t0 path Hmk Hrun bid w'.
  subst w'.
  unfold run_backup_job, run_backup_body, run_backup_handler, get_job, get_client, add_backup,
    update_backup, update_job_last_run; unfold_monad.
  rewrite !HE. cbn. rewrite Hj. cbn. rewrite HE. cbn. rewrite Hc. cbn.
  fold t0 path. rewrite Hmk. cbn. rewrite HE. cbn. rewrite Hrun. cbn.
  rewrite !HE. cbn.
  split; [reflexivity|]. split.
  { destruct (st_backups (w_store w) !! bid) as [b|] eqn:Hb; [|reflexivity].
    exfalso. pose proof (Hwf bid (elem_of_dom_2 _ _ _ Hb)). lia. }
  split; [|reflexivity].
  rewrite alter_insert_eq. reflexivity.
Qed.

(** strings *)
Lemma str_contains_char_app a b ch :
  str_contains_char (a +:+ b) ch = str_contains_char a ch || str_contains_char b ch.
Proof. induction a as [|x a IH]; simpl; [reflexivity|]. rewrite IH, orb_assoc. reflexivity. Qed.

Lemma remote_spec_not_option c p : remote_spec c p <> "--delete".
Proof.
  intros H. apply (f_equal (fun s => str_contains_char s "@"%char)) in H.
  cbv beta in H. unfold remote_spec in H. rewrite str_contains_char_app in H. cbn in H.
  rewrite orb_true_r in H. discriminate.
Qed.

Lemma str_length_app a b : String.length (a +:+ b) = (String.length a + String.length b)%nat.
Proof. induction a as [|x a IH]; simpl; auto. Qed.

Lemma slash_suffixed_not_option bp : bp +:+ "/" <> "--delete".
Proof.
  intros H. destruct (Nat.eq_dec (String.length bp) 7) as [H7|H7].
  - pose proof (append_correct2 bp "/" 0) as Hg. rewrite H, H7 in Hg. discriminate.
  - apply (f_equal String.length) in H. rewrite str_length_app in H. cbn in H. lia.
Qed.

Lemma ssh_command_not_option c : ssh_command c <> "--delete".
Proof. unfold ssh_command. cbn. discriminate. Qed.

Lemma with_sshpass_shape c cmd :
  (with_sshpass c cmd = cmd /\ (truthy (c_password c) && negb (truthy (c_key_path c)) = false)) \/
  (exists pw, c_password c = Some pw /\ truthy (c_password c) && negb (truthy (c_key_path c)) = true /\
     with_sshpass c cmd = ["sshpass"; "-p"; pw] ++ cmd).
Proof.
  unfold with_sshpass. destruct (c_password c) as [pw|] eqn:Hpw; [|left; auto].
  destruct (truthy (Some pw) && negb (truthy (c_key_path c))) eqn:Hb.
  - right. exists pw. auto.
  - left. auto.
Qed.

(** C8: the backup command is [rsync -avz --delete -e <ssh> ...] (archive,
    verbose, compress, delete extraneous files), the restore command is
    [rsync -avz -e <ssh> ...] with no [--delete] among its rsync arguments;
    both share the same optional sshpass prefix, and when [use_sudo] is set
    both carry [--rsync-path "sudo rsync"]. *)
Theorem transfer_command_options c source_path dest_path backup_path restore_path :
  let pre := with_sshpass c [] in
  (pre = [] \/ exists pw, pre = ["sshpass"; "-p"; pw]) /\
  build_rsync_command c source_path dest_path =
    pre ++ ["rsync"; "-avz"; "--delete"; "-e"; ssh_command c] ++ sudo_args c
        ++ [remote_spec c source_path; dest_path] /\
  build_restore_command c (Some backup_path) restore_path =
    Some (pre ++ ["rsync"; "-avz"; "-e"; ssh_command c] ++ sudo_args c
              ++ [backup_path +:+ "/"; remote_spec c restore_path]) /\
  ~ In "--delete" (["rsync"; "-avz"; "-e"; ssh_command c] ++ sudo_args c
                   ++ [backup_path +:+ "/"; remote_spec c restore_path]) /\
  (c_use_sudo c = true ->
   sudo_args c = ["--rsync-path"; "sudo rsync"] /\
   (exists l1 l2, build_rsync_command c source_path dest_path =
                    l1 ++ ["--rsync-path"; "sudo rsync"] ++ l2) /\
   (exists l1 l2, build_restore_command c (Some backup_path) restore_path =
                    Some (l1 ++ ["--rsync-path"; "sudo rsync"] ++ l2))).
Proof.
  cbv zeta.
  assert (Hpre : forall cmd, with_sshpass c cmd = with_sshpass c [] ++ cmd).
  { intros cmd. destruct (with_sshpass_shape c cmd) as [[-> Hb]|(pw & Hpw & Hb & ->)];
      destruct (with_sshpass_shape c []) as [[-> Hb']|(pw' & Hpw' & Hb' & ->)];
      try congruence; cbn; [reflexivity|]. rewrite Hpw in Hpw'. congruence. }
  split; [destruct (with_sshpass_shape c []) as [[-> _]|(pw & _ & _ & ->)]; eauto|].
  split; [unfold build_rsync_command; apply Hpre|].
  split; [unfold build_restore_command; rewrite Hpre; reflexivity|].
  split.
  - unfold sudo_args. intros Hin.
    destruct (c_use_sudo c); cbn in Hin;
      repeat match type of Hin with
             | _ \/ _ => destruct Hin as [Hin|Hin]
             end;
      try discriminate; try contradiction;
      first [ exact (ssh_command_not_option c Hin)
            | exact (slash_suffixed_not_option backup_path Hin)
            | exact (remote_spec_not_option c restore_path Hin) ].
  - intros Hs. unfold build_rsync_command, build_restore_command, sudo_args. rewrite Hs.
    split; [reflexivity|]. split.
    + rewrite Hpre. eexists (with_sshpass c [] ++ ["rsync"; "-avz"; "--delete"; "-e"; ssh_command c]), _.
      rewrite <- !app_assoc. reflexivity.
    + rewrite Hpre. eexists (with_sshpass c [] ++ ["rsync"; "-avz"; "-e"; ssh_command c]), _.
      rewrite <- !app_assoc. reflexivity.
Qed.

(** C10: for a client with both a key path and a password, both the backup
    and the restore command use [-i <key_path>] in their ssh command and
    start with [rsync], not [sshpass]; for every client, the
    [sshpass -p <password>] prefix is present exactly when the password is
    set (non-empty) and the key path is not. *)
Theorem key_auth_takes_precedence c source_path dest_path backup_path restore_path k pw :
  c_key_path c = Some k -> k <> "" -> c_password c = Some pw -> pw <> "" ->
  ssh_command c =
    "ssh -p " +:+ str_of_Z (c_port c) +:+ " -o StrictHostKeyChecking=no" +:+ " -i " +:+ k /\
  In (ssh_command c) (build_rsync_command c source_path dest_path) /\
  hd_error (build_rsync_command c source_path dest_path) = Some "rsync" /\
  (exists cmd, build_restore_command c (Some backup_path) restore_path = Some cmd /\
     In (ssh_command c) cmd /\ hd_error cmd = Some "rsync") /\
  (forall c' : client,
     ((exists pw' rest, build_rsync_command c' source_path dest_path = "sshpass" :: "-p" :: pw' :: rest
                        /\ c_password c' = Some pw') <->
      truthy (c_password c') = true /\ truthy (c_key_path c') = false) /\
     ((exists pw' rest, build_restore_command c' (Some backup_path) restore_path =
                          Some ("sshpass" :: "-p" :: pw' :: rest) /\ c_password c' = Some pw') <->
      truthy (c_password c') = true /\ truthy (c_key_path c') = false)).
Proof.
  intros Hk Hkne Hpw Hpwne.
  assert (Htk : truthy (c_key_path c) = true).
  { rewrite Hk. cbn. destruct (String.eqb_spec k ""); [contradiction|reflexivity]. }
  assert (Hnopre : forall cmd, with_sshpass c cmd = cmd).
  { intros cmd. unfold with_sshpass. rewrite Hpw. rewrite <- Hpw, Htk, andb_false_r. reflexivity. }
  split; [unfold ssh_command; rewrite Hk, <- Hk, Htk; reflexivity|].
  unfold build_rsync_command, build_restore_command. rewrite !Hnopre.
  split; [cbn; tauto|]. split; [reflexivity|].
  split; [eexists; split; [reflexivity|]; cbn; split; [tauto|reflexivity]|].
  intros c'.
  assert (Hiff : forall cmd, hd_error cmd = Some "rsync" ->
            ((exists pw' rest, with_sshpass c' cmd = "sshpass" :: "-p" :: pw' :: rest
                               /\ c_password c' = Some pw') <->
             truthy (c_password c') = true /\ truthy (c_key_path c') = false)).
  { intros cmd Hhd.
    destruct (with_sshpass_shape c' cmd) as [[-> Hb]|(pw' & Hpw' & Hb & ->)].
    - split.
      + intros (pw' & rest & Heq & _). rewrite Heq in Hhd. discriminate.
      + intros [H1 H2]. rewrite H1, H2 in Hb. discriminate.
    - apply andb_true_iff in Hb as [H1 H2]. apply negb_true_iff in H2.
      split; [intros _; auto|]. intros _. exists pw', cmd. auto. }
  split.
  - apply Hiff. reflexivity.
  - rewrite <- (Hiff (["rsync"; "-avz"; "-e"; ssh_command c'] ++ sudo_args c'
                        ++ [backup_path +:+ "/"; remote_spec c' restore_path]) eq_refl).
    split; intros (pw' & rest & Heq & Hp); exists pw', rest; split; auto;
      [injection Heq as Heq | rewrite Heq]; auto.
Qed.

(** C5 (amended): with a working database, [schedule_job] never raises and
    never changes the store; it registers (replacing any previous one) the
    trigger [job_<id>] exactly when the job exists, its schedule is a
    non-empty string splitting into 5 whitespace-separated fields and the
    cron parser accepts them; the enabled flag is not consulted.  Otherwise
    the trigger table is left unchanged. *)
Theorem schedule_job_registration E job_id w :
  db_healthy E ->
  let w' := fst (schedule_job E job_id w) in
  let eligible j s :=
    st_jobs (w_store w) !! job_id = Some j /\ j_schedule j = Some s /\ s <> "" /\
    List.length (py_split s) = 5%nat /\ cron_trigger E (py_split s) = None in
  snd (schedule_job E job_id w) = Ret tt /\
  w_store w' = w_store w /\
  ((exists j s, eligible j s /\
       w_sched w' = <[sched_id job_id := mkSchedJob (py_split s) job_id]> (w_sched w)) \/
   (~ (exists j s, eligible j s) /\ w_sched w' = w_sched w)).
Proof.
  intros HE w' eligible. subst w' eligible.
  unfold schedule_job, get_job; unfold_monad.
  rewrite HE. cbn.
  destruct (st_jobs (w_store w) !! job_id) as [j|] eqn:Hj; cbn;
    [|split; [reflexivity|]; split; [reflexivity|]; right; split;
      [intros (j' & s' & Hj' & _); congruence | reflexivity]].
  destruct (j_schedule j) as [s|] eqn:Hs; cbn;
    [|split; [reflexivity|]; split; [reflexivity|]; right; split;
      [intros (j' & s' & Hj' & Hs' & _); congruence | reflexivity]].
  destruct (String.eqb_spec s "") as [He|Hne]; cbn.
  - split; [reflexivity|]. split; [reflexivity|]. right. split; [|reflexivity].
    intros (j' & s' & Hj' & Hs' & Hne' & _). congruence.
  - destruct (Nat.eqb_spec (List.length (py_split s)) 5) as [H5|H5]; cbn.
    + destruct (cron_trigger E (py_split s)) as [m|] eqn:Hcron; cbn.
      * split; [reflexivity|]. split; [reflexivity|]. right. split; [|reflexivity].
        intros (j' & s' & Hj' & Hs' & _ & _ & Hc'). congruence.
      * split; [reflexivity|]. split; [reflexivity|]. left.
        exists j, s. repeat split; auto.
    + split; [reflexivity|]. split; [reflexivity|]. right. split; [|reflexivity].
      intros (j' & s' & Hj' & Hs' & _ & H5' & _). congruence.
Qed.

Lemma Sorted_take {A} (R : A -> A -> Prop) (n : nat) (l : list A) :
  Sorted R l -> Sorted R (take n l).
Proof.
  revert n. induction l as [|x l IH]; intros [|n] H; cbn; auto.
  inversion H as [|? ? Hs Hh]; subst. constructor; [apply IH; auto|].
  destruct l as [|y l], n as [|n]; cbn; auto. inversion Hh; subst. constructor. auto.
Qed.

(** [float(n)] is [n] itself for |n| <= 2^53. *)
Lemma py_float_of_int_small n : Z.abs n <= 2 ^ 53 -> py_float_of_int n = n.
Proof.
  intros Hn. unfold py_float_of_int.
  destruct (Z.eq_dec (Z.abs n) (2 ^ 53)) as [Heq|Hne].
  - rewrite Heq. cbv zeta.
    match goal with |- (if ?c then _ else _) = _ => replace c with false by reflexivity end.
    cbv beta iota.
    match goal with |- Z.sgn n * ?e = n => replace e with (Z.abs n) by (rewrite Heq; vm_compute; reflexivity) end.
    rewrite Z.mul_comm. apply Z.abs_sgn.
  - destruct (Z.eq_dec (Z.abs n) 0) as [H0|H0].
    + rewrite H0. reflexivity.
    + assert (Hl : Z.log2 (Z.abs n) < 53).
      { apply Z.log2_lt_pow2; lia. }
      destruct (Z.leb_spec (Z.log2 (Z.abs n) - 52) 0); [reflexivity | lia].
Qed.

(** C7 (corrected): with a working database, [get_statistics] returns the
    client count, job count, enabled-job count, and, over the at most 1000
    most recent backup rows (sorted by start time, newest first), their
    count, the completed and failed counts, the sum of [size_bytes] over
    completed rows with NULL read as 0, and [round(sum / 1024**3, 2)]: the
    sum is first rounded to the nearest double, so this is the nearest
    hundredth of sum / 1024^3 when |sum| <= 2^53, and the call returns [{}]
    when the division overflows; for two completed runs of 100 and 300
    bytes and one failed run it gives 2 completed, 1 failed and 400 bytes. *)
Theorem get_statistics_summary E w :
  db_healthy E ->
  let s := w_store w in
  let bs := backups_by_recency s 1000 in
  let completed := List.filter (fun b => String.eqb (b_status b) "completed") bs in
  let total := fold_right Z.add 0
                 (map (fun b => match b_size_bytes b with Some n => n | None => 0 end) completed) in
  snd (get_statistics E w) =
    (if py_true_div_overflows total 30 then Ret None
     else Ret (Some (mkStats (size (st_clients s)) (size (st_jobs s))
                 (List.length (List.filter (fun j => negb (j_enabled j =? 0))
                                 (map snd (map_to_list (st_jobs s)))))
                 (List.length bs) (List.length completed)
                 (List.length (List.filter (fun b => String.eqb (b_status b) "failed") bs))
                 total (py_round2_div (py_float_of_int total) (1024 ^ 3))))) /\
  (Z.abs total <= 2 ^ 53 -> py_float_of_int total = total) /\
  List.length bs = Nat.min 1000 (size (st_backups s)) /\
  Sorted newest_first bs /\
  (forall b, In b bs -> exists id, st_backups s !! id = Some b) /\
  (exists st, snd (get_statistics E stats_scenario) = Ret (Some st) /\
     successful_backups st = 2%nat /\ failed_backups st = 1%nat /\ total_size_bytes st = 400).
Proof.
  intros HE s bs completed total.
  split.
  { unfold get_statistics, get_all_clients, get_all_jobs, get_all_backups; unfold_monad.
    repeat (rewrite HE; cbn).
    unfold statistics_of, count_status, sum_completed_sizes, completed_size.
    change (fold_right Z.add 0 (map (fun b => match b_size_bytes b with Some n => n | None => 0 end)
              (List.filter (fun b => String.eqb (b_status b) "completed")
                 (backups_by_recency (w_store w) 1000)))) with total.
    destruct (py_true_div_overflows total 30); cbn; [reflexivity|].
    rewrite !length_map, !length_map_to_list. reflexivity. }
  split; [apply py_float_of_int_small|].
  split.
  { subst bs. unfold backups_by_recency. rewrite length_take.
    rewrite (Permutation_length (merge_sort_Permutation _ _)), length_map, length_map_to_list.
    reflexivity. }
  split.
  { apply Sorted_take. apply Sorted_merge_sort.
    intros b1 b2. unfold newest_first. lia. }
  split.
  { intros b Hin. subst bs. unfold backups_by_recency in Hin.
    assert (Hin' : In b (merge_sort newest_first (map snd (map_to_list (st_backups s))))).
    { rewrite <- (take_drop 1000 (merge_sort _ _)). apply in_or_app. left. exact Hin. }
    apply (Permutation_in _ (merge_sort_Permutation _ _)) in Hin'.
    apply in_map_iff in Hin' as ([id b'] & Hb & Hkv). cbn in Hb. subst b'.
    exists id. apply elem_of_map_to_list. apply list_elem_of_In. exact Hkv. }
  eexists. split.
  { unfold get_statistics, get_all_clients, get_all_jobs, get_all_backups; unfold_monad.
    repeat (rewrite HE; cbn). reflexivity. }
  cbn. auto.
Qed.

(* ------------------------------------------------------------------ *)
(** ** Witnesses and counterexamples *)

Lemma restore_backup_validates_destination_witness :
  w_procs (fst (restore_backup (demo_env (Completed 0 "" "")) 1 (Some "etc/passwd") restore_world))
    = w_procs restore_world /\
  snd (restore_backup (demo_env (Completed 0 "" "")) 1 (Some "etc/passwd") restore_world)
    = Ret (RestoreFailed "Restore path must be absolute").
Proof.
  pose proof (restore_backup_validates_destination (demo_env (Completed 0 "" "")) 1
                (Some "etc/passwd") restore_world) as H.
  cbv zeta in H. destruct H as (_ & HB & _).
  destruct (HB demo_backup demo_job demo_client "etc/passwd"
              ltac:(reflexivity) ltac:(reflexivity) ltac:(reflexivity) ltac:(reflexivity)
              (or_introl eq_refl)) as [Hp Hr].
  split; [exact Hp | exact (Hr (fun _ => eq_refl))].
Defined.

Lemma run_backup_job_completed_witness :
  snd (run_backup_job (demo_env (Completed 0 "" "")) "/data/backups" 1 demo_world)
    = Ret (RunSucceeded 1 400 2).
Proof.
  pose proof (run_backup_job_completed (demo_env (Completed 0 "" "")) "/data/backups" 1
                demo_world demo_job demo_client "" "" (fun _ => eq_refl)
                ltac:(intros k Hk; change (k ∈ dom (∅ : gmap Z backup)) in Hk;
                      apply elem_of_dom in Hk as [b Hb]; rewrite lookup_empty in Hb;
                      discriminate)
                ltac:(reflexivity) ltac:(reflexivity) ltac:(reflexivity) ltac:(reflexivity)) as H.
  cbv zeta in H. exact (proj1 H).
Defined.

(** C3 fails when the failing transfer prints nothing: the error text is
    empty and no error message is stored. *)
Lemma run_backup_job_empty_error_text :
  snd (run_backup_job (demo_env (Completed 23 "" "")) "/data/backups" 1 demo_world)
    = Ret (RunFailed "") /\
  (b_error_message <$>
     st_backups (w_store (fst (run_backup_job (demo_env (Completed 23 "" ""))
                                 "/data/backups" 1 demo_world))) !! 1) = Some None.
Proof. split; vm_compute; reflexivity. Qed.

Lemma run_backup_job_nonzero_exit_witness :
  snd (run_backup_job (demo_env (Completed 23 "" "rsync error")) "/data/backups" 1 demo_world)
    = Ret (RunFailed "rsync error").
Proof.
  pose proof (run_backup_job_nonzero_exit (demo_env (Completed 23 "" "rsync error"))
                "/data/backups" 1 demo_world demo_job demo_client 23 "" "rsync error"
                (fun _ => eq_refl)
                ltac:(intros k Hk; change (k ∈ dom (∅ : gmap Z backup)) in Hk;
                      apply elem_of_dom in Hk as [b Hb]; rewrite lookup_empty in Hb;
                      discriminate)
                ltac:(reflexivity) ltac:(reflexivity) ltac:(reflexivity) ltac:(reflexivity)
                ltac:(discriminate)) as H.
  cbv zeta in H. exact (proj1 H).
Defined.

(** C4: the database raises in [update_job_last_run] after the backup row
    was finalized as completed; the broad [except Exception] then finalizes
    the same row a second time, as failed. *)
Lemma run_backup_job_completed_then_failed :
  let w' := fst (run_backup_job locked_env "/data/backups" 1 demo_world) in
  snd (run_backup_job locked_env "/data/backups" 1 demo_world)
    = Ret (RunFailed "database is locked") /\
  w_dblog w' = ["get_job"; "get_client"; "add_backup"; "update_backup";
                "update_job_last_run"; "update_backup"] /\
  st_backups (w_store w') !! 1 =
    Some (mkBackup 1 1 "failed" 100 (Some 102) (Some 400) (Some 2)
            (Some "database is locked") (Some "/data/backups/1/home_100")).
Proof. cbv zeta. split; [|split]; vm_compute; reflexivity. Qed.

(** C5 fails for a disabled job: [schedule_job] still registers it. *)
Lemma schedule_job_registers_disabled_job :
  j_enabled demo_job = 0 /\
  w_sched (fst (schedule_job (demo_env (Completed 0 "" "")) 1 demo_world)) !! "job_1"
    = Some (mkSchedJob ["0"; "2"; "*"; "*"; "*"] 1).
Proof. split; [reflexivity | vm_compute; reflexivity]. Qed.

Lemma schedule_job_registration_witness :
  snd (schedule_job (demo_env (Completed 0 "" "")) 1 demo_world) = Ret tt.
Proof.
  pose proof (schedule_job_registration (demo_env (Completed 0 "" "")) 1 demo_world
                (fun _ => eq_refl)) as H.
  cbv zeta in H. exact (proj1 H).
Defined.

(** C6 fails on the wording of the message: it is
    "Backup timed out after 1 hour". *)
Lemma run_backup_job_timeout_message :
  snd (run_backup_job (demo_env ProcTimeout) "/data/backups" 1 demo_world)
    = Ret (RunFailed "Backup timed out after 1 hour") /\
  "Backup timed out after 1 hour" <> "timed out after 1 hour".
Proof. split; [vm_compute; reflexivity | discriminate]. Qed.

Lemma run_backup_job_timeout_witness :
  snd (run_backup_job (demo_env ProcTimeout) "/data/backups" 1 demo_world)
    = Ret (RunFailed "Backup timed out after 1 hour").
Proof.
  pose proof (run_backup_job_timeout (demo_env ProcTimeout) "/data/backups" 1 demo_world
                demo_job demo_client (fun _ => eq_refl)
                ltac:(intros k Hk; change (k ∈ dom (∅ : gmap Z backup)) in Hk;
                      apply elem_of_dom in Hk as [b Hb]; rewrite lookup_empty in Hb;
                      discriminate)
                ltac:(reflexivity) ltac:(reflexivity) ltac:(reflexivity) ltac:(reflexivity)) as H.
  cbv zeta in H. exact (proj1 H).
Defined.

Lemma get_statistics_summary_witness :
  exists st, snd (get_statistics (demo_env (Completed 0 "" "")) stats_scenario) = Ret (Some st) /\
    successful_backups st = 2%nat /\ failed_backups st = 1%nat /\ total_size_bytes st = 400.
Proof.
  pose proof (get_statistics_summary (demo_env (Completed 0 "" "")) demo_world
                (fun _ => eq_refl)) as H.
  cbv zeta in H. exact (proj2 (proj2 (proj2 (proj2 (proj2 H))))).
Defined.

(** C7 fails on the rounding for large totals: 9007199313796793 bytes are
    first rounded to the double 9007199313796792, and [total_size_gb] is
    8388608.05, while the nearest hundredth of the exact quotient
    9007199313796793 / 1024^3 is 8388608.06. *)
Lemma get_statistics_rounds_float_quotient :
  exists st, snd (get_statistics (demo_env (Completed 0 "" "")) large_world) = Ret (Some st) /\
    total_size_bytes st = 9007199313796793 /\
    total_size_gb_hundredths st = 838860805 /\
    2 * Z.abs (100 * total_size_bytes st - 838860806 * 1024 ^ 3) < 1024 ^ 3 /\
    1024 ^ 3 < 2 * Z.abs (100 * total_size_bytes st - total_size_gb_hundredths st * 1024 ^ 3).
Proof.
  eexists. split; [vm_compute; reflexivity|].
  vm_compute. repeat split; discriminate || reflexivity.
Qed.

Lemma transfer_command_options_witness :
  sudo_args demo_client = ["--rsync-path"; "sudo rsync"].
Proof.
  pose proof (transfer_command_options demo_client "/home/pi" "/data/backups/1/home_100"
                "/data/backups/1/home_100" "/home/pi") as H.
  cbv zeta in H. exact (proj1 (proj2 (proj2 (proj2 (proj2 H))) eq_refl)).
Defined.

Lemma key_auth_takes_precedence_witness :
  hd_error (build_rsync_command demo_client "/home/pi" "/data/backups/1/home_100")
    = Some "rsync".
Proof.
  pose proof (key_auth_takes_precedence demo_client "/home/pi" "/data/backups/1/home_100"
                "/data/backups/1/home_100" "/home/pi" "/keys/pi" "pw"
                eq_refl ltac:(discriminate) eq_refl ltac:(discriminate)) as H.
  exact (proj1 (proj2 (proj2 H))).
Defined.

(* ------------------------------------------------------------------ *)
(** ** More of the code: scheduler loading, deletions, history, paths *)

Lemma dec_val_app s t a : dec_val (s +:+ t) a = dec_val t (dec_val s a).
Proof. revert a. induction s as [|c s IH]; intros a; simpl; auto. Qed.

Lemma string_app_assoc (a b c : string) : (a +:+ b) +:+ c = a +:+ (b +:+ c).
Proof. induction a as [|x a IH]; [reflexivity|]. exact (f_equal (String x) IH). Qed.

Lemma digits_of_N_app fuel n acc :
  digits_of_N fuel n acc = digits_of_N fuel n "" +:+ acc.
Proof.
  revert n acc. induction fuel as [|f IH]; intros n acc; cbn; [reflexivity|].
  destruct (n <? 10)%N; [reflexivity|].
  rewrite IH, (IH _ (String _ "")), string_app_assoc. reflexivity.
Qed.

Lemma digit_char_val d : (d < 10)%N -> (N_of_ascii (ascii_of_N (48 + d)) - 48 = d)%N.
Proof. intros Hd. rewrite N_ascii_embedding by lia. lia. Qed.

Lemma dec_val_digits fuel n :
  (n < 10 ^ N.of_nat fuel)%N -> dec_val (digits_of_N fuel n "") 0 = n.
Proof.
  revert n. induction fuel as [|f IH]; intros n Hn; cbn.
  - cbn in Hn. lia.
  - destruct (N.ltb_spec n 10) as [Hlt|Hge].
    + cbn. rewrite digit_char_val by (apply N.mod_lt; lia).
      rewrite N.mod_small by lia. lia.
    + rewrite digits_of_N_app, dec_val_app, IH.
      * cbn. rewrite digit_char_val by (apply N.mod_lt; lia).
        pose proof (N.div_mod n 10). lia.
      * rewrite Nat2N.inj_succ, N.pow_succ_r' in Hn.
        apply N.Div0.div_lt_upper_bound. lia.
Qed.

Lemma pos_size_bound p : (N.pos p < 2 ^ N.of_nat (Pos.size_nat p))%N.
Proof.
  induction p as [p IH|p IH|]; cbn [Pos.size_nat]; rewrite ?Nat2N.inj_succ, ?N.pow_succ_r';
    cbn; lia.
Qed.

Lemma str_of_N_fuel n : (n < 10 ^ N.of_nat (S (N.size_nat n)))%N.
Proof.
  destruct n as [|p]; [cbn; lia|].
  pose proof (pos_size_bound p) as H.
  assert (2 ^ N.of_nat (Pos.size_nat p) <= 10 ^ N.of_nat (Pos.size_nat p))%N
    by (apply N.pow_le_mono_l; lia).
  rewrite Nat2N.inj_succ, N.pow_succ_r'. cbn [N.size_nat]. lia.
Qed.

Lemma dec_val_str_of_N n : dec_val (str_of_N n) 0 = n.
Proof. apply dec_val_digits, str_of_N_fuel. Qed.

Lemma digits_of_N_head fuel n acc :
  (n < 10 ^ N.of_nat fuel)%N -> (0 < fuel)%nat ->
  exists d s, (d < 10)%N /\ digits_of_N fuel n acc = String (ascii_of_N (48 + d)) s.
Proof.
  revert n acc. induction fuel as [|f IH]; intros n acc Hn Hf; [lia|]. cbn.
  destruct (N.ltb_spec n 10) as [Hlt|Hge].
  - exists (n mod 10)%N, acc. split; [apply N.mod_lt; lia|reflexivity].
  - apply IH.
    + rewrite Nat2N.inj_succ, N.pow_succ_r' in Hn.
      apply N.Div0.div_lt_upper_bound. lia.
    + destruct f; [cbn in Hn; lia|lia].
Qed.

Lemma int_of_str_of_Z z : int_of_str (str_of_Z z) = z.
Proof.
  destruct z as [|p|p]; cbn [str_of_Z].
  - reflexivity.
  - destruct (digits_of_N_head (S (N.size_nat (Z.to_N (Z.pos p)))) (Z.to_N (Z.pos p)) ""
                (str_of_N_fuel _) ltac:(lia)) as (d & s & Hd & Hs).
    unfold str_of_N. rewrite Hs. cbn [int_of_str].
    assert (Hc : Ascii.eqb (ascii_of_N (48 + d)) "-" = false).
    { apply Ascii.eqb_neq. intros Hq. apply (f_equal N_of_ascii) in Hq.
      rewrite N_ascii_embedding in Hq by lia. cbn in Hq. lia. }
    rewrite Hc, <- Hs. change (Z.of_N (dec_val (str_of_N (Z.to_N (Z.pos p))) 0) = Z.pos p).
    rewrite dec_val_str_of_N. reflexivity.
  - cbn [int_of_str Ascii.eqb]. cbn -[str_of_N]. rewrite dec_val_str_of_N. reflexivity.
Qed.

Lemma str_of_Z_inj a b : str_of_Z a = str_of_Z b -> a = b.
Proof.
  intros H. rewrite <- (int_of_str_of_Z a), <- (int_of_str_of_Z b), H. reflexivity.
Qed.

Lemma sched_id_inj a b : sched_id a = sched_id b -> a = b.
Proof. unfold sched_id. cbn. intros H. injection H as H. apply str_of_Z_inj, H. Qed.


Lemma unschedule_job_sched job_id w :
  fst (unschedule_job job_id w) = set_sched (delete (sched_id job_id) (w_sched w)) w /\
  snd (unschedule_job job_id w) = Ret tt.
Proof.
  unfold unschedule_job, scheduler_remove_job; unfold_monad.
  destruct (w_sched w !! sched_id job_id) eqn:H; cbn; [auto|].
  split; [|reflexivity].
  rewrite delete_id by exact H. destruct w; reflexivity.
Qed.

(** [unschedule_job] never raises: it removes the trigger [job_<id>] when
    the scheduler holds one and is a no-op otherwise; it touches no other
    trigger, neither the database nor the processes. *)
Theorem unschedule_job_removes_only_its_trigger job_id w :
  let w' := fst (unschedule_job job_id w) in
  snd (unschedule_job job_id w) = Ret tt /\
  w_store w' = w_store w /\ w_dblog w' = w_dblog w /\ w_procs w' = w_procs w /\
  w_sched w' !! sched_id job_id = None /\
  (forall id, id <> sched_id job_id -> w_sched w' !! id = w_sched w !! id) /\
  (forall job_id', job_id' <> job_id ->
     w_sched w' !! sched_id job_id' = w_sched w !! sched_id job_id').
Proof.
  destruct (unschedule_job_sched job_id w) as [-> ->]. cbn.
  split; [reflexivity|]. split; [reflexivity|]. split; [reflexivity|].
  split; [reflexivity|]. split; [apply lookup_delete_eq|].
  split.
  - intros id Hid. apply lookup_delete_ne. congruence.
  - intros j' Hj'. apply lookup_delete_ne. intros Heq. apply Hj', sched_id_inj. congruence.
Qed.

Lemma schedule_job_sched_frame E job_id w :
  w_sched (fst (schedule_job E job_id w)) = w_sched w \/
  exists parts, w_sched (fst (schedule_job E job_id w)) =
                  <[sched_id job_id := mkSchedJob parts job_id]> (w_sched w).
Proof.
  unfold schedule_job, get_job; unfold_monad.
  repeat (case_match; unfold retM, raiseM in *; simplify_eq/=); eauto.
Qed.

(** Whatever [schedule_job] did (registered, replaced, kept, or raised),
    [unschedule_job] afterwards leaves the scheduler as it was with the
    job's trigger deleted. *)
Theorem schedule_then_unschedule E job_id w :
  let w1 := fst (schedule_job E job_id w) in
  w_sched (fst (unschedule_job job_id w1)) = delete (sched_id job_id) (w_sched w).
Proof.
  cbv zeta. rewrite (proj1 (unschedule_job_sched _ _)). cbn.
  destruct (schedule_job_sched_frame E job_id w) as [->|[parts ->]]; [reflexivity|].
  apply delete_insert_eq.
Qed.

Lemma schedule_job_effect E job_id w :
  db_healthy E ->
  let w' := fst (schedule_job E job_id w) in
  snd (schedule_job E job_id w) = Ret tt /\ w_store w' = w_store w /\
  w_sched w' = match st_jobs (w_store w) !! job_id with
               | Some j => match sched_trigger E j with
                           | Some p => <[sched_id job_id := mkSchedJob p job_id]> (w_sched w)
                           | None => w_sched w
                           end
               | None => w_sched w
               end.
Proof.
  intros HE. unfold schedule_job, get_job, sched_trigger; unfold_monad.
  rewrite HE. cbn.
  destruct (st_jobs (w_store w) !! job_id) as [j|]; cbn; [|auto].
  destruct (j_schedule j) as [s|]; cbn; [|auto].
  destruct (negb (s =? "")%string); cbn; [|auto].
  destruct (List.length (py_split s) =? 5)%nat; cbn; [|auto].
  destruct (cron_trigger E (py_split s)); cbn; auto.
Qed.

Lemma load_jobs_effect E l w :
  db_healthy E ->
  (forall j, In j l -> st_jobs (w_store w) !! j_id j = Some j) ->
  let w' := fst (load_jobs E l w) in
  snd (load_jobs E l w) = Ret tt /\ w_store w' = w_store w /\
  w_sched w' = foldl (load_step E) (w_sched w) l.
Proof.
  intros HE. revert w. induction l as [|j l IH]; intros w Hl; cbn zeta.
  - cbn. auto.
  - cbn [load_jobs]. unfold bindM.
    assert (Hstep : exists w1, (if negb (j_enabled j =? 0) && truthy (j_schedule j)
                     then tryM (schedule_job E (j_id j)) (fun _ => retM tt) else retM tt) w
                     = (w1, Ret tt) /\ w_store w1 = w_store w /\
                     w_sched w1 = load_step E (w_sched w) j).
    { unfold load_step.
      destruct (negb (j_enabled j =? 0)) eqn:Hen; cbn.
      - destruct (truthy (j_schedule j)) eqn:Ht; cbn.
        + destruct (schedule_job_effect E (j_id j) w HE) as (Hr & Hs & Hsch).
          unfold tryM. destruct (schedule_job E (j_id j) w) as [w1 r] eqn:Hsj.
          cbn in Hr, Hs, Hsch. subst r. exists w1. split; [reflexivity|]. split; [exact Hs|].
          rewrite Hsch, (Hl j (or_introl eq_refl)). reflexivity.
        + unfold retM. exists w. split; [reflexivity|]. split; [reflexivity|].
          unfold sched_trigger. destruct (j_schedule j) as [s|]; [|reflexivity].
          rewrite Ht. reflexivity.
      - unfold retM. exists w. auto. }
    destruct Hstep as (w1 & Heq & Hs1 & Hsch1). rewrite Heq.
    destruct (IH w1) as (Hr & Hs & Hsch).
    { intros j' Hj'. rewrite Hs1. apply Hl. right. exact Hj'. }
    split; [exact Hr|]. split; [rewrite Hs; exact Hs1|].
    rewrite Hsch, Hsch1. reflexivity.
Qed.

Lemma foldl_load_step E l m :
  (forall j1 j2, In j1 l -> In j2 l -> j_id j1 = j_id j2 -> j1 = j2) ->
  forall id sj,
    foldl (load_step E) m l !! id = Some sj <->
    (exists j p, In j l /\ j_enabled j <> 0 /\ sched_trigger E j = Some p /\
                 id = sched_id (j_id j) /\ sj = mkSchedJob p (j_id j)) \/
    (m !! id = Some sj /\
     ~ exists j p, In j l /\ j_enabled j <> 0 /\ sched_trigger E j = Some p /\
                   id = sched_id (j_id j)).
Proof.
  revert m. induction l as [|j l IH]; intros m Hu id sj; cbn [foldl].
  - split; [intros H; right; split; [exact H|]; intros (j & p & [] & _)|].
    intros [(j & p & [] & _)|[H _]]; exact H.
  - rewrite IH by (intros j1 j2 H1 H2; apply Hu; right; assumption).
    unfold load_step at 1.
    destruct (Z.eqb_spec (j_enabled j) 0) as [Hen|Hen]; cbn [negb];
      [|destruct (sched_trigger E j) as [p|] eqn:Htr].
    + split.
      * intros [(j' & p' & Hin & Hrest)|[Hm Hno]]; [left; exists j', p'; split; [right|]; auto|].
        right. split; [exact Hm|]. intros (j' & p' & [<-|Hin] & Hen' & Hrest); [contradiction|].
        apply Hno. exists j', p'. auto.
      * intros [(j' & p' & [<-|Hin] & Hen' & Hrest)|[Hm Hno]]; [contradiction| |].
        -- left. exists j', p'. auto.
        -- right. split; [exact Hm|]. intros (j' & p' & Hin & Hrest). apply Hno.
           exists j', p'. split; [right|]; auto.
    + split.
      * intros [(j' & p' & Hin & Hrest)|[Hm Hno]]; [left; exists j', p'; split; [right|]; auto|].
        destruct (decide (id = sched_id (j_id j))) as [->|Hne].
        -- rewrite lookup_insert_eq in Hm. injection Hm as <-. left. exists j, p.
           split; [left; reflexivity|]. auto.
        -- rewrite lookup_insert_ne in Hm by congruence. right. split; [exact Hm|].
           intros (j' & p' & [<-|Hin] & Hen' & Htr' & Hid); [contradiction|].
           apply Hno. exists j', p'. auto.
      * intros [(j' & p' & [<-|Hin] & Hen' & Htr' & Hid & Hsj)|[Hm Hno]].
        -- rewrite Htr in Htr'. injection Htr' as <-.
           destruct (decide (Exists (fun j'' => j_enabled j'' <> 0 /\ is_Some (sched_trigger E j'') /\
                                              id = sched_id (j_id j'')) l)) as [Hex|Hnex].
           ++ apply Exists_exists in Hex as (j'' & Hin'' & Hen'' & [p'' Htr''] & Hid'').
              apply list_elem_of_In in Hin''.
              left. exists j'', p''. split; [exact Hin''|]. split; [exact Hen''|].
              split; [exact Htr''|]. split; [exact Hid''|].
              assert (j'' = j) as ->.
              { apply Hu; [right; exact Hin''|left; reflexivity|].
                apply sched_id_inj. congruence. }
              rewrite Htr in Htr''. injection Htr'' as <-. exact Hsj.
           ++ right. split; [subst id sj; apply lookup_insert_eq|].
              intros (j'' & p'' & Hin & Hen'' & Htr'' & Hid''). apply Hnex.
              apply Exists_exists. exists j''. split; [apply list_elem_of_In; exact Hin|].
              split; [exact Hen''|]. split; [rewrite Htr''; eexists; reflexivity|exact Hid''].
        -- left. exists j', p'. auto.
        -- right. split.
           ++ rewrite lookup_insert_ne; [exact Hm|]. intros Hid. apply Hno.
              exists j, p. split; [left; reflexivity|]. auto.
           ++ intros (j' & p' & Hin & Hrest). apply Hno. exists j', p'. split; [right|]; auto.
    + split.
      * intros [(j' & p' & Hin & Hrest)|[Hm Hno]]; [left; exists j', p'; split; [right|]; auto|].
        right. split; [exact Hm|]. intros (j' & p' & [<-|Hin] & Hen' & Htr' & Hid);
          [congruence|]. apply Hno. exists j', p'. auto.
      * intros [(j' & p' & [<-|Hin] & Hen' & Htr' & Hrest)|[Hm Hno]]; [congruence| |].
        -- left. exists j', p'. auto.
        -- right. split; [exact Hm|]. intros (j' & p' & Hin & Hrest). apply Hno.
           exists j', p'. split; [right|]; auto.
Qed.

Lemma sched_trigger_Some E j p :
  sched_trigger E j = Some p <->
  exists s, j_schedule j = Some s /\ s <> "" /\ List.length (py_split s) = 5%nat /\
            cron_trigger E (py_split s) = None /\ p = py_split s.
Proof.
  unfold sched_trigger. destruct (j_schedule j) as [s|]; cbn.
  2:{ split; [discriminate|intros (s & Hs & _); discriminate]. }
  destruct (String.eqb_spec s "") as [He|Hne]; cbn.
  { split; [discriminate|intros (s' & Hs & Hne' & _); congruence]. }
  destruct (Nat.eqb_spec (List.length (py_split s)) 5) as [H5|H5]; cbn.
  2:{ split; [discriminate|intros (s' & Hs & _ & H5' & _); congruence]. }
  destruct (cron_trigger E (py_split s)) eqn:Hc.
  - split; [discriminate|intros (s' & Hs & _ & _ & Hc' & _); congruence].
  - split; [intros Hp; injection Hp as <-; exists s; auto|].
    intros (s' & Hs & _ & _ & _ & ->). congruence.
Qed.

(** On a healthy database whose rows carry their own ids,
    [BackupManager.__init__] does not raise and writes nothing to the
    database, and the scheduler ends up holding exactly one trigger [job_<id>] for each job
    that is enabled, has a non-empty schedule of five fields and a cron
    expression [CronTrigger] accepts, and nothing else. *)
Theorem init_manager_registers_enabled_jobs E w :
  db_healthy E ->
  (forall k j, st_jobs (w_store w) !! k = Some j -> j_id j = k) ->
  let w' := fst (init_manager E w) in
  snd (init_manager E w) = Ret tt /\ w_store w' = w_store w /\
  forall id sj, w_sched w' !! id = Some sj <->
    exists k j s, st_jobs (w_store w) !! k = Some j /\ j_enabled j <> 0 /\
      j_schedule j = Some s /\ s <> "" /\ List.length (py_split s) = 5%nat /\
      cron_trigger E (py_split s) = None /\
      id = sched_id k /\ sj = mkSchedJob (py_split s) k.
Proof.
  intros HE Hkey. cbv zeta.
  unfold init_manager, load_scheduled_jobs, get_all_jobs; unfold_monad.
  rewrite HE. cbn.
  set (l := map snd (map_to_list (st_jobs (w_store w)))).
  assert (Hin : forall j, In j l -> st_jobs (w_store w) !! j_id j = Some j).
  { intros j Hj. apply in_map_iff in Hj as ([k j'] & Hj' & Hkv). cbn in Hj'. subst j'.
    apply list_elem_of_In, elem_of_map_to_list in Hkv. rewrite (Hkey k j Hkv). exact Hkv. }
  destruct (load_jobs_effect E l (log_dbcall "get_all_jobs" (set_sched ∅ w)) HE Hin)
    as (Hr & Hs & Hsch).
  split; [exact Hr|]. split; [exact Hs|].
  intros id sj. rewrite Hsch, foldl_load_step.
  2:{ intros j1 j2 H1 H2 Hid. apply Hin in H1, H2. congruence. }
  cbn [log_dbcall set_sched w_sched]. rewrite lookup_empty.
  split.
  - intros [(j & p & Hj & Hen & Htr & Hid & Hsj)|[Habs _]]; [|discriminate].
    apply sched_trigger_Some in Htr as (s & Hs' & Hne & H5 & Hc & ->).
    exists (j_id j), j, s. apply Hin in Hj. auto 10.
  - intros (k & j & s & Hj & Hen & Hs' & Hne & H5 & Hc & Hid & Hsj). left.
    exists j, (py_split s). split.
    + apply in_map_iff. exists (k, j). split; [reflexivity|].
      apply list_elem_of_In, elem_of_map_to_list. exact Hj.
    + rewrite (Hkey k j Hj). split; [exact Hen|]. split; [|auto].
      apply sched_trigger_Some. exists s. auto.
Qed.


Lemma dir_size_from_acc es t : dir_size_from es t = (t + dir_size_from es 0)%N.
Proof.
  revert t. induction es as [|[n| |] es IH]; intros t; cbn; try lia.
  - rewrite IH, (IH (0 + n)%N). lia.
  - apply IH.
Qed.

(** [_calculate_directory_size] never exceeds the sum of the sizes of the
    listed files; it is that sum when no [getsize] raises, and the sum of the
    files before the first raising [getsize] otherwise (the [except] returns
    the running total). [_count_files] counts every listed file. *)
Theorem directory_size_and_count E path :
  let es := fs_walk E path in
  (calculate_directory_size E path <= listed_size es)%N /\
  (Forall (fun e => e <> FileRaced) es -> calculate_directory_size E path = listed_size es) /\
  (forall pre post, es = pre ++ FileRaced :: post -> Forall (fun e => e <> FileRaced) pre ->
     calculate_directory_size E path = listed_size pre) /\
  count_files E path = N.of_nat (List.length es).
Proof.
  cbv zeta. unfold calculate_directory_size, count_files.
  generalize (fs_walk E path) as es.
  assert (Hclean : forall es, Forall (fun e => e <> FileRaced) es -> dir_size_from es 0 = listed_size es).
  { induction es as [|e es IH]; intros H; [reflexivity|].
    inversion H as [|? ? He Hes]; subst.
    destruct e as [n| |]; cbn; [|apply IH; exact Hes|contradiction].
    rewrite dir_size_from_acc, IH by exact Hes. lia. }
  intros es. split; [|split; [exact (Hclean es)|split; [|reflexivity]]].
  - induction es as [|[n| |] es IH]; cbn; try lia.
    rewrite dir_size_from_acc. lia.
  - intros pre post -> Hpre. clear Hclean.
    induction pre as [|e pre IH]; [reflexivity|].
    inversion Hpre as [|? ? He Hp]; subst.
    destruct e as [n| |]; cbn; [|apply IH; exact Hp|contradiction].
    rewrite dir_size_from_acc, IH by exact Hp. lia.
Qed.

(** [run_backup_job] on a missing job or a missing client returns the
    failure dict without touching the database or starting a process. *)
Theorem run_backup_job_missing_rows E backup_dir job_id w :
  db_healthy E ->
  let r := run_backup_job E backup_dir job_id w in
  (st_jobs (w_store w) !! job_id = None ->
     snd r = Ret (RunFailed "Job not found") /\
     w_store (fst r) = w_store w /\ w_procs (fst r) = w_procs w) /\
  (forall j, st_jobs (w_store w) !! job_id = Some j ->
     st_clients (w_store w) !! j_client_id j = None ->
     snd r = Ret (RunFailed "Client not found") /\
     w_store (fst r) = w_store w /\ w_procs (fst r) = w_procs w).
Proof.
  intros HE. cbv zeta. unfold run_backup_job, get_job, get_client; unfold_monad.
  split.
  - intros Hj. rewrite HE. cbn. rewrite Hj. cbn. auto.
  - intros j Hj Hc. rewrite HE. cbn. rewrite Hj. cbn. rewrite HE. cbn. rewrite Hc. cbn. auto.
Qed.

(** When [os.makedirs] raises, [run_backup_job] propagates the exception
    before any row is written, and [run_job] answers with the 400 error
    "Failed to run backup job"; neither the database nor the processes
    change. *)
Theorem api_run_job_makedirs_error E backup_dir job_id w j c m :
  db_healthy E ->
  st_jobs (w_store w) !! job_id = Some j ->
  st_clients (w_store w) !! j_client_id j = Some c ->
  fs_makedirs E (backup_path_of backup_dir j (w_clock w)) = Some m ->
  snd (run_backup_job E backup_dir job_id w) = Raise (PyException m) /\
  snd (api_run_job E backup_dir job_id w) = Ret (RunHttp400 "Failed to run backup job") /\
  w_store (fst (api_run_job E backup_dir job_id w)) = w_store w /\
  w_procs (fst (api_run_job E backup_dir job_id w)) = w_procs w.
Proof.
  intros HE Hj Hc Hm.
  unfold api_run_job, run_backup_job, get_job, get_client; unfold_monad.
  rewrite !HE. cbn. rewrite Hj. cbn. rewrite HE. cbn. rewrite Hc. cbn.
  rewrite Hm. cbn. auto.
Qed.

(** What [run_backup_job] may change, whatever the environment: clients and
    the scheduler never; backups only at the next fresh id; jobs only the
    run job's [last_run]; the id counter by at most one; and at most one
    process is started, the rsync transfer of that job to its backup
    path. *)
Theorem run_backup_job_frame E backup_dir job_id w :
  let s := w_store w in
  let w' := fst (run_backup_job E backup_dir job_id w) in
  let s' := w_store w' in
  let bid := st_next_backup s in
  st_clients s' = st_clients s /\
  (forall k, k <> bid -> st_backups s' !! k = st_backups s !! k) /\
  (forall k, k <> job_id -> st_jobs s' !! k = st_jobs s !! k) /\
  (st_jobs s' !! job_id = st_jobs s !! job_id \/
   exists j t, st_jobs s !! job_id = Some j /\ st_jobs s' !! job_id = Some (set_last_run t j)) /\
  (st_next_backup s' = bid \/ st_next_backup s' = bid + 1) /\
  w_sched w' = w_sched w /\
  (w_procs w' = w_procs w \/
   exists j c, st_jobs s !! job_id = Some j /\ st_clients s !! j_client_id j = Some c /\
     w_procs w' = w_procs w ++ [build_rsync_command c (j_source_path j)
                                  (backup_path_of backup_dir j (w_clock w))]).
Proof.
  cbv zeta.
  unfold run_backup_job, run_backup_body, run_backup_handler, get_job, get_client, add_backup,
    update_backup, update_job_last_run; unfold_monad.
  repeat (case_match; unfold retM, raiseM in *; simplify_eq/=).
  all: repeat split; try reflexivity.
  all: try (intros k Hk; rewrite ?lookup_alter_ne, ?lookup_insert_ne by congruence; reflexivity).
  all: try (left; reflexivity).
  all: try (right; reflexivity).
  all: try (left; assumption).
  all: try (right; eexists _, _; split; [reflexivity|]; split; [eassumption|reflexivity]).
  all: right; eexists _, _; split; [reflexivity|]; rewrite lookup_alter_eq;
    match goal with H : st_jobs _ !! _ = Some _ |- _ => rewrite H end; reflexivity.
Qed.

(** On a healthy database with the job and its client present and
    [os.makedirs] succeeding, the backup row of the run ends finalized: it
    belongs to the job, records its start and end time and its path, and
    its status and the returned dict follow the rsync outcome. *)
Theorem run_backup_job_finalizes_run E backup_dir job_id w j c :
  db_healthy E ->
  st_jobs (w_store w) !! job_id = Some j ->
  st_clients (w_store w) !! j_client_id j = Some c ->
  let t0 := w_clock w in
  let path := backup_path_of backup_dir j t0 in
  fs_makedirs E path = None ->
  let bid := st_next_backup (w_store w) in
  let r := run_backup_job E backup_dir job_id w in
  exists b, st_backups (w_store (fst r)) !! bid = Some b /\
    b_job_id b = job_id /\ b_start_time b = t0 /\ b_end_time b = Some (t0 + 1) /\
    b_backup_path b = Some path /\
    match proc_run E (build_rsync_command c (j_source_path j) path) with
    | Completed rc out err =>
        if rc =? 0
        then b_status b = "completed" /\
             snd r = Ret (RunSucceeded bid (calculate_directory_size E path) (count_files E path))
        else b_status b = "failed" /\ snd r = Ret (RunFailed (captured_error out err))
    | ProcTimeout => b_status b = "failed" /\ snd r = Ret (RunFailed "Backup timed out after 1 hour")
    | ProcError m => b_status b = "failed" /\ snd r = Ret (RunFailed m)
    end.
Proof.
  intros HE Hj Hc t0 path Hmk bid r. subst r.
  unfold run_backup_job, run_backup_body, run_backup_handler, get_job, get_client, add_backup,
    update_backup, update_job_last_run; unfold_monad.
  rewrite !HE. cbn. rewrite Hj. cbn. rewrite HE. cbn. rewrite Hc. cbn.
  fold t0 path. rewrite Hmk. cbn. rewrite HE. cbn.
  destruct (proc_run E (build_rsync_command c (j_source_path j) path)) as [rc out err| |m]; cbn.
  - destruct (rc =? 0); cbn; rewrite !HE; cbn; rewrite lookup_alter_eq, lookup_insert_eq;
      (eexists; split; [reflexivity|]); cbn; repeat split.
  - rewrite !HE; cbn; rewrite lookup_alter_eq, lookup_insert_eq;
      (eexists; split; [reflexivity|]); cbn; repeat split.
  - rewrite !HE; cbn; rewrite lookup_alter_eq, lookup_insert_eq;
      (eexists; split; [reflexivity|]); cbn; repeat split.
Qed.


(** [restore_backup] on a missing backup, job or client returns the
    matching failure dict and starts no process. *)
Theorem restore_backup_missing_rows E backup_id restore_path w :
  db_healthy E ->
  let r := restore_backup E backup_id restore_path w in
  let s := w_store w in
  (st_backups s !! backup_id = None ->
     snd r = Ret (RestoreFailed "Backup not found") /\ w_procs (fst r) = w_procs w) /\
  (forall b, st_backups s !! backup_id = Some b -> st_jobs s !! b_job_id b = None ->
     snd r = Ret (RestoreFailed "Job not found") /\ w_procs (fst r) = w_procs w) /\
  (forall b j, st_backups s !! backup_id = Some b -> st_jobs s !! b_job_id b = Some j ->
     st_clients s !! j_client_id j = None ->
     snd r = Ret (RestoreFailed "Client not found") /\ w_procs (fst r) = w_procs w).
Proof.
  intros HE. cbv zeta. unfold restore_backup, get_backup, get_job, get_client; unfold_monad.
  split; [|split].
  - intros Hb. rewrite HE. cbn. rewrite Hb. cbn. auto.
  - intros b Hb Hj. rewrite HE. cbn. rewrite Hb. cbn. rewrite HE. cbn. rewrite Hj. cbn. auto.
  - intros b j Hb Hj Hc. rewrite HE. cbn. rewrite Hb. cbn. rewrite HE. cbn. rewrite Hj. cbn.
    rewrite HE. cbn. rewrite Hc. cbn. auto.
Qed.

(** For a backup with a recorded path and a valid destination,
    [restore_backup] starts exactly one process, the rsync of the backup
    directory's contents back to the client, writes nothing to the
    database, and succeeds exactly when that process exits with code 0;
    otherwise it reports the captured output, [str(e)] of the
    [TimeoutExpired] (the command printed as a list) on a timeout, or the
    message of the raised error. *)
Theorem restore_backup_outcome E backup_id restore_path w b j c p bp :
  db_healthy E ->
  st_backups (w_store w) !! backup_id = Some b ->
  st_jobs (w_store w) !! b_job_id b = Some j ->
  st_clients (w_store w) !! j_client_id j = Some c ->
  restore_destination restore_path (Some (j_source_path j)) = Some p ->
  restore_path_absolute p = true -> restore_path_clean p = true ->
  b_backup_path b = Some bp ->
  let cmd := with_sshpass c (["rsync"; "-avz"; "-e"; ssh_command c] ++ sudo_args c
                             ++ [bp +:+ "/"; remote_spec c p]) in
  let r := restore_backup E backup_id restore_path w in
  w_procs (fst r) = w_procs w ++ [cmd] /\ w_store (fst r) = w_store w /\
  (snd r = Ret (RestoreSucceeded "Restore completed successfully") <->
   exists out err, proc_run E cmd = Completed 0 out err) /\
  (forall rc out err, proc_run E cmd = Completed rc out err -> rc <> 0 ->
     snd r = Ret (RestoreFailed (captured_error out err))) /\
  (proc_run E cmd = ProcTimeout ->
     snd r = Ret (RestoreFailed ("Command '" +:+ py_repr_list cmd
                                 +:+ "' timed out after 3600 seconds"))) /\
  (forall m, proc_run E cmd = ProcError m -> snd r = Ret (RestoreFailed m)).
Proof.
  intros HE Hb Hj Hc Hp Habs Hcl Hbp cmd r. subst r.
  unfold restore_backup, restore_transfer, get_backup, get_job, get_client; unfold_monad.
  rewrite HE. cbn. rewrite Hb. cbn. rewrite HE. cbn. rewrite Hj. cbn.
  rewrite HE. cbn. rewrite Hc. cbn. rewrite Hp, Habs, Hcl. cbn.
  unfold build_restore_command. rewrite Hbp. fold cmd.
  destruct (proc_run E cmd) as [rc out err| |m] eqn:Hrun; cbn.
  - destruct (Z.eqb_spec rc 0) as [->|Hrc]; cbn;
      (split; [reflexivity|]); (split; [reflexivity|]).
    + split; [split; [intros _; eauto|reflexivity]|].
      split; [intros rc' out' err' Hr' Hne; injection Hr' as <- _ _; contradiction|].
      split; [intros Ht; discriminate|].
      intros m' Hm'. discriminate.
    + split; [split; [discriminate|intros (o & e & Hr'); injection Hr' as Hr' _ _; contradiction]|].
      split; [intros rc' out' err' Hr' _; injection Hr' as <- <- <-; reflexivity|].
      split; [intros Ht; discriminate|].
      intros m' Hm'. discriminate.
  - split; [reflexivity|]. split; [reflexivity|].
    split; [split; [discriminate|intros (o & e & Hr'); discriminate]|].
    split; [intros rc' out' err' Hr'; discriminate|].
    split; [intros _; reflexivity|]. intros m' Hm'. discriminate.
  - split; [reflexivity|]. split; [reflexivity|].
    split; [split; [discriminate|intros (o & e & Hr'); discriminate]|].
    split; [intros rc' out' err' Hr'; discriminate|].
    split; [intros Ht; discriminate|]. intros m' Hm'. injection Hm' as <-.
    reflexivity.
Qed.

Lemma api_delete_job_effect E job_id w :
  db_healthy E ->
  let w' := fst (api_delete_job E job_id w) in
  snd (api_delete_job E job_id w) = Ret tt /\
  w_store w' = mkStore (st_clients (w_store w)) (delete job_id (st_jobs (w_store w)))
                 (st_backups (w_store w)) (st_next_backup (w_store w)) /\
  w_sched w' = delete (sched_id job_id) (w_sched w) /\ w_procs w' = w_procs w.
Proof.
  intros HE. cbv zeta. unfold api_delete_job, bindM.
  destruct (unschedule_job_sched job_id w) as [H1 H2].
  destruct (unschedule_job job_id w) as [w1 r1]. cbn in H1, H2. subst w1 r1.
  unfold delete_job, db_call, write_store. rewrite HE. cbn. auto.
Qed.

(** [DELETE /api/jobs/<id>] removes the job row and its trigger and nothing
    else: the job's backups stay (foreign keys are not enforced), so running
    the deleted job answers "Job not found" and restoring one of its backups
    answers "Job not found". *)
Theorem api_delete_job_keeps_runs E backup_dir job_id w :
  db_healthy E ->
  let w' := fst (api_delete_job E job_id w) in
  snd (api_delete_job E job_id w) = Ret tt /\
  st_jobs (w_store w') !! job_id = None /\
  (forall k, k <> job_id -> st_jobs (w_store w') !! k = st_jobs (w_store w) !! k) /\
  st_backups (w_store w') = st_backups (w_store w) /\
  st_clients (w_store w') = st_clients (w_store w) /\
  w_sched w' !! sched_id job_id = None /\
  (forall id, id <> sched_id job_id -> w_sched w' !! id = w_sched w !! id) /\
  snd (run_backup_job E backup_dir job_id w') = Ret (RunFailed "Job not found") /\
  w_store (fst (run_backup_job E backup_dir job_id w')) = w_store w' /\
  (forall backup_id b restore_path,
     st_backups (w_store w) !! backup_id = Some b -> b_job_id b = job_id ->
     snd (restore_backup E backup_id restore_path w') = Ret (RestoreFailed "Job not found") /\
     w_procs (fst (restore_backup E backup_id restore_path w')) = w_procs w').
Proof.
  intros HE. cbv zeta.
  destruct (api_delete_job_effect E job_id w HE) as (Hr & Hs & Hsch & Hp).
  set (w' := fst (api_delete_job E job_id w)) in *.
  split; [exact Hr|].
  split; [rewrite Hs; apply lookup_delete_eq|].
  split; [intros k Hk; rewrite Hs; apply lookup_delete_ne; congruence|].
  split; [rewrite Hs; reflexivity|]. split; [rewrite Hs; reflexivity|].
  split; [rewrite Hsch; apply lookup_delete_eq|].
  split; [intros id Hid; rewrite Hsch; apply lookup_delete_ne; congruence|].
  assert (Hj : st_jobs (w_store w') !! job_id = None) by (rewrite Hs; apply lookup_delete_eq).
  destruct (run_backup_job_missing_rows E backup_dir job_id w' HE) as [Hrun _].
  destruct (Hrun Hj) as (Hr1 & Hs1 & _).
  split; [exact Hr1|]. split; [exact Hs1|].
  intros backup_id b restore_path Hb Hbj.
  destruct (restore_backup_missing_rows E backup_id restore_path w' HE) as (_ & Hres & _).
  apply (Hres b); [rewrite Hs; exact Hb|rewrite Hbj; exact Hj].
Qed.

(** [DELETE /api/clients/<id>] removes only the client row: the other
    clients, its jobs, the backups and the triggers stay, and running any of
    its jobs afterwards answers "Client not found" without starting a
    process. *)
Theorem api_delete_client_orphans_jobs E backup_dir client_id w :
  db_healthy E ->
  let w' := fst (api_delete_client E client_id w) in
  snd (api_delete_client E client_id w) = Ret tt /\
  st_clients (w_store w') !! client_id = None /\
  (forall k, k <> client_id -> st_clients (w_store w') !! k = st_clients (w_store w) !! k) /\
  st_jobs (w_store w') = st_jobs (w_store w) /\
  st_backups (w_store w') = st_backups (w_store w) /\
  w_sched w' = w_sched w /\
  (forall job_id j, st_jobs (w_store w) !! job_id = Some j -> j_client_id j = client_id ->
     snd (run_backup_job E backup_dir job_id w') = Ret (RunFailed "Client not found") /\
     w_store (fst (run_backup_job E backup_dir job_id w')) = w_store w' /\
     w_procs (fst (run_backup_job E backup_dir job_id w')) = w_procs w').
Proof.
  intros HE. cbv zeta.
  assert (Hw : fst (api_delete_client E client_id w) =
               log_dbcall "delete_client" (set_store
                 (mkStore (delete client_id (st_clients (w_store w))) (st_jobs (w_store w))
                    (st_backups (w_store w)) (st_next_backup (w_store w))) w)
           /\ snd (api_delete_client E client_id w) = Ret tt).
  { unfold api_delete_client, delete_client, db_call, write_store. rewrite HE. cbn.
    destruct w; split; reflexivity. }
  destruct Hw as [Hw Hr]. rewrite Hw. cbn.
  split; [exact Hr|]. split; [apply lookup_delete_eq|].
  split; [intros k Hk; apply lookup_delete_ne; congruence|].
  split; [reflexivity|]. split; [reflexivity|]. split; [reflexivity|].
  intros job_id j Hj Hcid.
  destruct (run_backup_job_missing_rows E backup_dir job_id
              (log_dbcall "delete_client" (set_store
                 (mkStore (delete client_id (st_clients (w_store w))) (st_jobs (w_store w))
                    (st_backups (w_store w)) (st_next_backup (w_store w))) w)) HE) as [_ H].
  apply (H j); cbn; [exact Hj|]. rewrite Hcid. apply lookup_delete_eq.
Qed.


Lemma count_completed_failed bs :
  (count_status "completed" bs + count_status "failed" bs <= List.length bs)%nat.
Proof.
  unfold count_status. induction bs as [|b bs IH]; cbn; [lia|].
  destruct (String.eqb_spec (b_status b) "completed") as [Hc|Hc];
    destruct (String.eqb_spec (b_status b) "failed") as [Hf|Hf]; cbn; try congruence; lia.
Qed.

Lemma py_round2_div_nearest x d :
  0 < d -> 2 * Z.abs (x * 100 - py_round2_div x d * d) <= d.
Proof.
  intros Hd. unfold py_round2_div.
  pose proof (Z.div_mod (x * 100) d ltac:(lia)) as Hdm.
  pose proof (Z.mod_pos_bound (x * 100) d Hd) as Hb.
  set (q := x * 100 / d) in *. set (r := x * 100 mod d) in *.
  destruct (Z.ltb_spec (2 * r) d); [lia|].
  destruct (Z.ltb_spec d (2 * r)); [lia|].
  destruct (Z.even q); lia.
Qed.

Lemma get_statistics_healthy E w :
  db_healthy E ->
  let s := w_store w in
  snd (get_statistics E w) =
    match statistics_of (map snd (map_to_list (st_clients s))) (map snd (map_to_list (st_jobs s)))
            (backups_by_recency s 1000) with
    | Some st => Ret (Some st)
    | None => Ret None
    end.
Proof.
  intros HE. cbv zeta.
  unfold get_statistics, get_all_clients, get_all_jobs, get_all_backups; unfold_monad.
  repeat (rewrite HE; cbn).
  destruct (statistics_of _ _ _); reflexivity.
Qed.

(** [get_statistics] only reads; when it returns statistics, enabled jobs
    are at most the jobs, successful and failed backups at most the counted
    backups, which are at most 1000 ([LIMIT 1000]), and the gigabyte figure
    is the nearest hundredth of [float(total_size_bytes) / 1024^3], hence of
    [total_size_bytes / 1024^3] when the total is at most 2^53 bytes. On a
    healthy database it returns statistics exactly when that division does
    not overflow. *)
Theorem get_statistics_bounds E w :
  let r := get_statistics E w in
  w_store (fst r) = w_store w /\ w_procs (fst r) = w_procs w /\ w_sched (fst r) = w_sched w /\
  (snd r = Ret None \/
   exists st, snd r = Ret (Some st) /\
     (enabled_jobs st <= total_jobs st)%nat /\
     (successful_backups st + failed_backups st <= total_backups st)%nat /\
     (total_backups st <= 1000)%nat /\
     2 * Z.abs (100 * py_float_of_int (total_size_bytes st)
                - total_size_gb_hundredths st * 1024 ^ 3) <= 1024 ^ 3 /\
     (Z.abs (total_size_bytes st) <= 2 ^ 53 ->
      2 * Z.abs (100 * total_size_bytes st - total_size_gb_hundredths st * 1024 ^ 3)
        <= 1024 ^ 3)) /\
  (db_healthy E ->
   ((exists st, snd r = Ret (Some st)) <->
    py_true_div_overflows (sum_completed_sizes (backups_by_recency (w_store w) 1000)) 30
      = false)).
Proof.
  cbv zeta.
  assert (Hst : forall cs js bs st, (List.length bs <= 1000)%nat ->
            statistics_of cs js bs = Some st ->
            (enabled_jobs st <= total_jobs st)%nat /\
            (successful_backups st + failed_backups st <= total_backups st)%nat /\
            (total_backups st <= 1000)%nat /\
            2 * Z.abs (100 * py_float_of_int (total_size_bytes st)
                       - total_size_gb_hundredths st * 1024 ^ 3) <= 1024 ^ 3 /\
            (Z.abs (total_size_bytes st) <= 2 ^ 53 ->
             2 * Z.abs (100 * total_size_bytes st - total_size_gb_hundredths st * 1024 ^ 3)
               <= 1024 ^ 3)).
  { intros cs js bs st Hbs Hso. unfold statistics_of in Hso.
    destruct (py_true_div_overflows _ 30); [discriminate|].
    injection Hso as <-.
    cbn [enabled_jobs total_jobs successful_backups failed_backups total_backups
         total_size_bytes total_size_gb_hundredths].
    pose proof (py_round2_div_nearest (py_float_of_int (sum_completed_sizes bs)) (1024 ^ 3)
                  ltac:(lia)) as Hn.
    split; [apply List.filter_length_le|]. split; [apply count_completed_failed|].
    split; [exact Hbs|]. split; [lia|].
    intros Hsm. rewrite py_float_of_int_small in Hn |- * by exact Hsm. lia. }
  assert (Hlen : forall s, (List.length (backups_by_recency s 1000) <= 1000)%nat).
  { intros s. unfold backups_by_recency. rewrite length_take. lia. }
  split; [|split; [|split; [|split]]].
  1-4: unfold get_statistics, get_all_clients, get_all_jobs, get_all_backups; unfold_monad.
  1-3: repeat (case_match; unfold retM, raiseM in *; simplify_eq/=); reflexivity.
  - repeat (case_match; unfold retM, raiseM in *; simplify_eq/=); try (left; reflexivity).
    right. eexists. split; [reflexivity|]. eapply Hst; [apply Hlen|eassumption].
  - intros HE. rewrite (get_statistics_healthy E w HE). cbv zeta.
    unfold statistics_of at 1.
    destruct (py_true_div_overflows _ 30); split.
    + intros (st & Hst'). discriminate.
    + discriminate.
    + intros _. reflexivity.
    + intros _. eexists. reflexivity.
Qed.

(** [get_job_history(job_id, limit)] returns at most [limit] backups of that
    job, newest first, all taken from the table; when it returns fewer than
    [limit] it returns every backup of the job. *)
Theorem get_job_history_rows E job_id limit w :
  db_healthy E ->
  let s := w_store w in
  exists hs, snd (get_job_history E job_id limit w) = Ret hs /\
    w_store (fst (get_job_history E job_id limit w)) = s /\
    (List.length hs <= limit)%nat /\
    Sorted newest_first hs /\
    (forall b, In b hs -> b_job_id b = job_id /\ exists k, st_backups s !! k = Some b) /\
    ((List.length hs < limit)%nat ->
     forall k b, st_backups s !! k = Some b -> b_job_id b = job_id -> In b hs).
Proof.
  intros HE. cbv zeta.
  unfold get_job_history, db_call, read_store. rewrite HE. cbn.
  set (l := List.filter (fun b => b_job_id b =? job_id)
              (map snd (map_to_list (st_backups (w_store w))))).
  exists (take limit (merge_sort newest_first l)).
  split; [reflexivity|]. split; [reflexivity|].
  split; [rewrite length_take; lia|].
  split; [apply Sorted_take, Sorted_merge_sort; intros b1 b2; unfold newest_first; lia|].
  split.
  - intros b Hin.
    assert (Hin' : In b l).
    { apply (Permutation_in _ (merge_sort_Permutation newest_first l)).
      rewrite <- (take_drop limit (merge_sort _ _)). apply in_or_app. left. exact Hin. }
    subst l. apply filter_In in Hin' as [Hin' Hj]. apply Z.eqb_eq in Hj. split; [exact Hj|].
    apply in_map_iff in Hin' as ([k b'] & Hb & Hkv). cbn in Hb. subst b'.
    exists k. apply elem_of_map_to_list, list_elem_of_In. exact Hkv.
  - intros Hlt k b Hk Hj.
    assert (Hall : take limit (merge_sort newest_first l) = merge_sort newest_first l).
    { apply take_ge. rewrite length_take in Hlt. lia. }
    rewrite Hall. apply (Permutation_in _ (Permutation_sym (merge_sort_Permutation _ _))).
    subst l. apply filter_In. split; [|apply Z.eqb_eq; exact Hj].
    apply in_map_iff. exists (k, b). split; [reflexivity|].
    apply list_elem_of_In, elem_of_map_to_list. exact Hk.
Qed.

(** [add_backup] returns a fresh id, writes only that row and keeps ids
    below the counter; [get_backup] then returns the row as inserted, with
    the job's source path. *)
Theorem add_backup_then_get_backup E job_id status start_time backup_path w :
  db_healthy E ->
  (forall k, k ∈ dom (st_backups (w_store w)) -> k < st_next_backup (w_store w)) ->
  let id := st_next_backup (w_store w) in
  let w1 := fst (add_backup E job_id status start_time backup_path w) in
  snd (add_backup E job_id status start_time backup_path w) = Ret id /\
  st_backups (w_store w) !! id = None /\
  (forall k, k <> id -> st_backups (w_store w1) !! k = st_backups (w_store w) !! k) /\
  (forall k, k ∈ dom (st_backups (w_store w1)) -> k < st_next_backup (w_store w1)) /\
  snd (get_backup E id w1) =
    Ret (Some (mkBackup id job_id status start_time None None None None backup_path,
               j_source_path <$> st_jobs (w_store w) !! job_id)).
Proof.
  intros HE Hwf. cbv zeta.
  unfold add_backup, get_backup, db_call, read_store. rewrite HE. cbn. rewrite HE. cbn.
  split; [reflexivity|].
  split.
  { destruct (st_backups (w_store w) !! st_next_backup (w_store w)) as [b|] eqn:Hb; [|reflexivity].
    exfalso. pose proof (Hwf _ (elem_of_dom_2 _ _ _ Hb)). lia. }
  split; [intros k Hk; apply lookup_insert_ne; congruence|].
  split.
  - intros k Hk. rewrite dom_insert_L in Hk. apply elem_of_union in Hk as [Hk|Hk].
    + apply elem_of_singleton in Hk. lia.
    + pose proof (Hwf k Hk). lia.
  - rewrite lookup_insert_eq. reflexivity.
Qed.

(** [update_backup] changes only the row with the given id (nothing for a
    missing id, and never its id, job, start time or path) and no other
    table.  It tests [status] and [error_message] for truthiness, so [None]
    and an empty string both leave the field as it was, [end_time] for being
    given, and [size_bytes] and [file_count] only against [None], so a size
    or file count of 0 is stored. *)
Theorem update_backup_field_rules E backup_id status end_time size_bytes file_count
    error_message w :
  db_healthy E ->
  let r := update_backup E backup_id status end_time size_bytes file_count error_message w in
  let s := w_store w in
  let s' := w_store (fst r) in
  snd r = Ret tt /\
  st_clients s' = st_clients s /\ st_jobs s' = st_jobs s /\
  st_next_backup s' = st_next_backup s /\
  (forall k, k <> backup_id -> st_backups s' !! k = st_backups s !! k) /\
  (st_backups s !! backup_id = None -> st_backups s' = st_backups s) /\
  (forall b, st_backups s !! backup_id = Some b ->
   exists b', st_backups s' !! backup_id = Some b' /\
     b_id b' = b_id b /\ b_job_id b' = b_job_id b /\ b_start_time b' = b_start_time b /\
     b_backup_path b' = b_backup_path b /\
     (forall st, status = Some st -> st <> "" -> b_status b' = st) /\
     (status = None \/ status = Some "" -> b_status b' = b_status b) /\
     (forall t, end_time = Some t -> b_end_time b' = Some t) /\
     (end_time = None -> b_end_time b' = b_end_time b) /\
     (forall n, size_bytes = Some n -> b_size_bytes b' = Some n) /\
     (size_bytes = None -> b_size_bytes b' = b_size_bytes b) /\
     (forall n, file_count = Some n -> b_file_count b' = Some n) /\
     (file_count = None -> b_file_count b' = b_file_count b) /\
     (forall m, error_message = Some m -> m <> "" -> b_error_message b' = Some m) /\
     (error_message = None \/ error_message = Some "" ->
      b_error_message b' = b_error_message b)).
Proof.
  intros HE. cbv zeta. unfold update_backup, db_call, write_store. rewrite HE. cbn.
  split; [reflexivity|]. split; [reflexivity|]. split; [reflexivity|]. split; [reflexivity|].
  split; [intros k Hk; apply lookup_alter_ne; congruence|].
  split; [intros Hn; apply map_eq; intros k; rewrite lookup_alter;
          case_decide; subst; [rewrite Hn|]; reflexivity|].
  intros b Hb. rewrite lookup_alter_eq, Hb. cbn.
  eexists. split; [reflexivity|]. unfold apply_backup_update; cbn.
  split; [reflexivity|]. split; [reflexivity|]. split; [reflexivity|]. split; [reflexivity|].
  split.
  { intros st -> Hne. unfold truthy. destruct (String.eqb_spec st ""); [contradiction|reflexivity]. }
  split.
  { intros [-> | ->]; reflexivity. }
  split; [intros t ->; reflexivity|]. split; [intros ->; reflexivity|].
  split; [intros n ->; reflexivity|]. split; [intros ->; reflexivity|].
  split; [intros n ->; reflexivity|]. split; [intros ->; reflexivity|].
  split.
  { intros m -> Hne. unfold truthy. destruct (String.eqb_spec m ""); [contradiction|reflexivity]. }
  intros [-> | ->]; reflexivity.
Qed.


Lemma digit_not_slash d : (d < 10)%N -> ascii_of_N (48 + d) <> "/"%char.
Proof.
  intros Hd Hq. apply (f_equal N_of_ascii) in Hq.
  rewrite N_ascii_embedding in Hq by lia. cbn in Hq. lia.
Qed.

Lemma str_of_N_last n : exists y d, (d < 10)%N /\ str_of_N n = y +:+ String (ascii_of_N (48 + d)) "".
Proof.
  unfold str_of_N. cbn [digits_of_N].
  destruct (n <? 10)%N.
  - exists "", (n mod 10)%N. split; [apply N.mod_lt; lia|reflexivity].
  - rewrite digits_of_N_app. eexists _, (n mod 10)%N. split; [apply N.mod_lt; lia|reflexivity].
Qed.

Lemma str_of_Z_last z : exists y c, c <> "/"%char /\ str_of_Z z = y +:+ String c "".
Proof.
  destruct z as [|p|p]; cbn [str_of_Z].
  - destruct (str_of_N_last (Z.to_N 0)) as (y & d & Hd & ->). eauto using digit_not_slash.
  - destruct (str_of_N_last (Z.to_N (Z.pos p))) as (y & d & Hd & ->). eauto using digit_not_slash.
  - destruct (str_of_N_last (Z.to_N (- Z.neg p))) as (y & d & Hd & ->).
    exists (String "-" y), (ascii_of_N (48 + d)). split; [apply digit_not_slash; exact Hd|reflexivity].
Qed.

Lemma str_of_Z_first z : exists c s, c <> "/"%char /\ str_of_Z z = String c s.
Proof.
  destruct z as [|p|p]; cbn [str_of_Z].
  - exists "0"%char, "". split; [discriminate|reflexivity].
  - destruct (digits_of_N_head (S (N.size_nat (Z.to_N (Z.pos p)))) (Z.to_N (Z.pos p)) ""
                (str_of_N_fuel _) ltac:(lia)) as (d & s & Hd & Hs).
    unfold str_of_N. rewrite Hs. exists (ascii_of_N (48 + d)), s.
    split; [apply digit_not_slash; exact Hd|reflexivity].
  - exists "-"%char, (str_of_N (Z.to_N (- Z.neg p))). split; [discriminate|reflexivity].
Qed.

Lemma substring_last x c :
  substring (String.length (x +:+ String c "") - 1) 1 (x +:+ String c "") = String c "".
Proof.
  induction x as [|a x IH]; [reflexivity|].
  change (String a x +:+ String c "") with (String a (x +:+ String c "")).
  assert (Hl : (String.length (x +:+ String c "") >= 1)%nat).
  { rewrite str_length_app. cbn. lia. }
  replace (String.length (String a (x +:+ String c "")) - 1)%nat
    with (S (String.length (x +:+ String c "") - 1)) by (cbn; lia).
  cbn [substring]. exact IH.
Qed.

Lemma prefix_one a c s :
  String.prefix (String a "") (String c s) = if Ascii.ascii_dec a c then true else false.
Proof. destruct s; reflexivity. Qed.

(** [os.path.join] in [run_backup_job]: for a job whose name starts with
    '/' the join discards [backup_dir] and the client directory, and the
    backup path is [<name>_<timestamp>]; otherwise, for a non-empty [backup_dir] without trailing '/', the path is
    [<backup_dir>/<client_id>/<name>_<timestamp>]. *)
Theorem backup_path_layout backup_dir j t :
  let name := j_name j +:+ "_" +:+ strftime t in
  (startswith (j_name j) "/" = true -> backup_path_of backup_dir j t = name) /\
  (startswith (j_name j) "/" = false -> backup_dir <> "" ->
   substring (String.length backup_dir - 1) 1 backup_dir <> "/" ->
   backup_path_of backup_dir j t =
     backup_dir +:+ "/" +:+ str_of_Z (j_client_id j) +:+ "/" +:+ name).
Proof.
  cbv zeta. unfold backup_path_of, path_join.
  assert (Hname : startswith (j_name j +:+ "_" +:+ strftime t) "/" = startswith (j_name j) "/").
  { destruct (j_name j) as [|c n]; [reflexivity|]. unfold startswith.
    change (String c n +:+ "_" +:+ strftime t) with (String c (n +:+ "_" +:+ strftime t)).
    rewrite !prefix_one. reflexivity. }
  rewrite Hname. split; [intros ->; reflexivity|].
  intros Hn Hd Hlast. rewrite Hn.
  destruct (str_of_Z_first (j_client_id j)) as (c0 & s0 & Hc0 & Hf).
  assert (Hs : startswith (str_of_Z (j_client_id j)) "/" = false).
  { rewrite Hf. unfold startswith. rewrite prefix_one. destruct (Ascii.ascii_dec "/" c0); [congruence|reflexivity]. }
  rewrite Hs. destruct (String.eqb_spec backup_dir "") as [He|_]; [contradiction|].
  destruct (String.eqb_spec (substring (String.length backup_dir - 1) 1 backup_dir) "/");
    [contradiction|].
  destruct (str_of_Z_last (j_client_id j)) as (y & c & Hc & Hl). rewrite Hl.
  replace (backup_dir +:+ "/" +:+ y +:+ String c "")
    with ((backup_dir +:+ "/" +:+ y) +:+ String c "") by (rewrite !string_app_assoc; reflexivity).
  rewrite substring_last.
  destruct (String.eqb_spec ((backup_dir +:+ "/" +:+ y) +:+ String c "") "") as [He|_].
  { apply (f_equal String.length) in He. rewrite str_length_app in He. cbn in He. lia. }
  destruct (String.eqb_spec (String c "") "/") as [He|_]; [injection He as He; contradiction|].
  rewrite !string_app_assoc. reflexivity.
Qed.

(* ------------------------------------------------------------------ *)
(** ** Witnesses of the properties above *)

Lemma unschedule_job_removes_only_its_trigger_witness :
  w_sched (fst (unschedule_job 1 demo_world)) !! "job_2" = w_sched demo_world !! "job_2".
Proof.
  pose proof (unschedule_job_removes_only_its_trigger 1 demo_world) as H.
  cbv zeta in H. exact (proj1 (proj2 (proj2 (proj2 (proj2 (proj2 H))))) "job_2"
                          ltac:(intros Hq; vm_compute in Hq; discriminate)).
Defined.

Lemma init_manager_registers_enabled_jobs_witness :
  snd (init_manager (demo_env (Completed 0 "" "")) demo_world) = Ret tt.
Proof.
  pose proof (init_manager_registers_enabled_jobs (demo_env (Completed 0 "" "")) demo_world
                (fun _ => eq_refl)
                ltac:(intros k j Hk; change (({[1 := demo_job]} : gmap Z job) !! k = Some j) in Hk;
                      apply lookup_singleton_Some in Hk as [<- <-];
                      reflexivity)) as H.
  cbv zeta in H. exact (proj1 H).
Defined.

Lemma directory_size_and_count_witness :
  calculate_directory_size (demo_env (Completed 0 "" "")) "/data/backups/1/home_100" = 400%N.
Proof.
  pose proof (directory_size_and_count (demo_env (Completed 0 "" "")) "/data/backups/1/home_100")
    as H.
  cbv zeta in H.
  exact (proj1 (proj2 H) ltac:(repeat constructor; discriminate)).
Defined.

Lemma run_backup_job_missing_rows_witness :
  snd (run_backup_job (demo_env (Completed 0 "" "")) "/data/backups" 2 demo_world)
    = Ret (RunFailed "Job not found").
Proof.
  pose proof (run_backup_job_missing_rows (demo_env (Completed 0 "" "")) "/data/backups" 2
                demo_world (fun _ => eq_refl)) as H.
  cbv zeta in H. exact (proj1 (proj1 H eq_refl)).
Defined.

Lemma api_run_job_makedirs_error_witness :
  snd (api_run_job readonly_env "/data/backups" 1 demo_world)
    = Ret (RunHttp400 "Failed to run backup job").
Proof.
  pose proof (api_run_job_makedirs_error readonly_env "/data/backups" 1 demo_world
                demo_job demo_client "[Errno 30] Read-only file system"
                (fun _ => eq_refl) eq_refl eq_refl eq_refl) as H.
  exact (proj1 (proj2 H)).
Defined.

Lemma run_backup_job_frame_witness :
  st_backups (w_store (fst (run_backup_job (demo_env (Completed 0 "" "")) "/data/backups" 1
                                 restore_world))) !! 1
    = st_backups (w_store restore_world) !! 1.
Proof.
  pose proof (run_backup_job_frame (demo_env (Completed 0 "" "")) "/data/backups" 1
                restore_world) as H.
  cbv zeta in H. exact (proj1 (proj2 H) 1 ltac:(discriminate)).
Defined.

Lemma run_backup_job_finalizes_run_witness :
  exists b, st_backups (w_store (fst (run_backup_job (demo_env (Completed 0 "" ""))
                                        "/data/backups" 1 demo_world))) !! 1 = Some b /\
    b_end_time b = Some 101.
Proof.
  pose proof (run_backup_job_finalizes_run (demo_env (Completed 0 "" "")) "/data/backups" 1
                demo_world demo_job demo_client (fun _ => eq_refl) eq_refl eq_refl eq_refl) as H.
  cbv zeta in H. destruct H as (b & Hb & _ & _ & He & _).
  exists b. split; [exact Hb | exact He].
Defined.

Lemma restore_backup_missing_rows_witness :
  snd (restore_backup (demo_env (Completed 0 "" "")) 7 None restore_world)
    = Ret (RestoreFailed "Backup not found").
Proof.
  pose proof (restore_backup_missing_rows (demo_env (Completed 0 "" "")) 7 None restore_world
                (fun _ => eq_refl)) as H.
  cbv zeta in H. exact (proj1 (proj1 H eq_refl)).
Defined.

Lemma restore_backup_outcome_witness :
  snd (restore_backup (demo_env (Completed 0 "" "")) 1 (Some "/home/pi") restore_world)
    = Ret (RestoreSucceeded "Restore completed successfully") /\
  snd (restore_backup (demo_env ProcTimeout) 1 (Some "/home/pi") restore_world)
    = Ret (RestoreFailed ("Command '['rsync', '-avz', '-e', "
                          +:+ "'ssh -p 22 -o StrictHostKeyChecking=no -i /keys/pi', "
                          +:+ "'--rsync-path', 'sudo rsync', '/data/backups/1/home_100/', "
                          +:+ "'pi@10.0.0.5:/home/pi']' timed out after 3600 seconds")).
Proof.
  split.
  - pose proof (restore_backup_outcome (demo_env (Completed 0 "" "")) 1 (Some "/home/pi")
                  restore_world demo_backup demo_job demo_client "/home/pi"
                  "/data/backups/1/home_100" (fun _ => eq_refl) eq_refl eq_refl eq_refl eq_refl
                  eq_refl eq_refl eq_refl) as H.
    cbv zeta in H. destruct H as (_ & _ & Hiff & _).
    exact (proj2 Hiff (ex_intro _ "" (ex_intro _ "" eq_refl))).
  - pose proof (restore_backup_outcome (demo_env ProcTimeout) 1 (Some "/home/pi")
                  restore_world demo_backup demo_job demo_client "/home/pi"
                  "/data/backups/1/home_100" (fun _ => eq_refl) eq_refl eq_refl eq_refl eq_refl
                  eq_refl eq_refl eq_refl) as H.
    cbv zeta in H. destruct H as (_ & _ & _ & _ & Ht & _).
    exact (Ht eq_refl).
Defined.

Lemma api_delete_job_keeps_runs_witness :
  snd (restore_backup (demo_env (Completed 0 "" "")) 1 None
         (fst (api_delete_job (demo_env (Completed 0 "" "")) 1 restore_world)))
    = Ret (RestoreFailed "Job not found").
Proof.
  pose proof (api_delete_job_keeps_runs (demo_env (Completed 0 "" "")) "/data/backups" 1
                restore_world (fun _ => eq_refl)) as H.
  cbv zeta in H. destruct H as (_ & _ & _ & _ & _ & _ & _ & _ & _ & Hr).
  exact (proj1 (Hr 1 demo_backup None eq_refl eq_refl)).
Defined.

Lemma api_delete_client_orphans_jobs_witness :
  snd (run_backup_job (demo_env (Completed 0 "" "")) "/data/backups" 1
         (fst (api_delete_client (demo_env (Completed 0 "" "")) 1 demo_world)))
    = Ret (RunFailed "Client not found").
Proof.
  pose proof (api_delete_client_orphans_jobs (demo_env (Completed 0 "" "")) "/data/backups" 1
                demo_world (fun _ => eq_refl)) as H.
  cbv zeta in H. destruct H as (_ & _ & _ & _ & _ & _ & Hr).
  exact (proj1 (Hr 1 demo_job eq_refl eq_refl)).
Defined.

Lemma get_statistics_bounds_witness :
  exists st, snd (get_statistics (demo_env (Completed 0 "" "")) stats_scenario) = Ret (Some st).
Proof.
  pose proof (get_statistics_bounds (demo_env (Completed 0 "" "")) stats_scenario) as H.
  cbv zeta in H.
  exact (proj2 (proj2 (proj2 (proj2 (proj2 H))) (fun _ => eq_refl)) ltac:(vm_compute; reflexivity)).
Defined.

Lemma get_job_history_rows_witness :
  exists hs, snd (get_job_history (demo_env (Completed 0 "" "")) 1 50 stats_scenario) = Ret hs /\
    (List.length hs <= 50)%nat.
Proof.
  pose proof (get_job_history_rows (demo_env (Completed 0 "" "")) 1 50 stats_scenario
                (fun _ => eq_refl)) as H.
  cbv zeta in H. destruct H as (hs & Hr & _ & Hl & _).
  exists hs. split; [exact Hr | exact Hl].
Defined.

Lemma add_backup_then_get_backup_witness :
  snd (add_backup (demo_env (Completed 0 "" "")) 1 "running" 100 (Some "/data/backups/1/home_100")
         demo_world) = Ret 1.
Proof.
  pose proof (add_backup_then_get_backup (demo_env (Completed 0 "" "")) 1 "running" 100
                (Some "/data/backups/1/home_100") demo_world (fun _ => eq_refl)
                ltac:(intros k Hk; change (k ∈ dom (∅ : gmap Z backup)) in Hk;
                      apply elem_of_dom in Hk as [b Hb]; rewrite lookup_empty in Hb;
                      discriminate)) as H.
  cbv zeta in H. exact (proj1 H).
Defined.

Lemma update_backup_field_rules_witness :
  exists b', st_backups (w_store (fst (update_backup (demo_env (Completed 0 "" "")) 1 (Some "")
                                         (Some 300) (Some 0) (Some 0) (Some "") restore_world)))
               !! 1 = Some b' /\
    b_status b' = "completed" /\ b_size_bytes b' = Some 0 /\ b_file_count b' = Some 0 /\
    b_error_message b' = None.
Proof.
  pose proof (update_backup_field_rules (demo_env (Completed 0 "" "")) 1 (Some "") (Some 300)
                (Some 0) (Some 0) (Some "") restore_world (fun _ => eq_refl)) as H.
  cbv zeta in H. destruct H as (_ & _ & _ & _ & _ & _ & Hrow).
  destruct (Hrow demo_backup eq_refl)
    as (b' & Hb' & _ & _ & _ & _ & _ & Hst & _ & _ & Hsz & _ & Hfc & _ & _ & Hem).
  exists b'. split; [exact Hb'|].
  split; [exact (Hst (or_intror eq_refl))|].
  split; [exact (Hsz 0 eq_refl)|].
  split; [exact (Hfc 0 eq_refl)|].
  exact (Hem (or_intror eq_refl)).
Defined.

Lemma backup_path_layout_witness :
  backup_path_of "/data/backups" (mkJob 2 1 "/etc" "/etc" None 1 None) 100 = "/etc_100" /\
  backup_path_of "/data/backups" demo_job 100 = "/data/backups/1/home_100".
Proof.
  split.
  - exact (proj1 (backup_path_layout "/data/backups" (mkJob 2 1 "/etc" "/etc" None 1 None) 100)
             eq_refl).
  - exact (proj2 (backup_path_layout "/data/backups" demo_job 100) eq_refl
             ltac:(discriminate) ltac:(intros Hq; vm_compute in Hq; discriminate)).
Defined.
